(** * AIDE platform: agent orchestration pipeline and long-term memory

    A shallow embedding of [agentOrchestrator.ts] (PlannerAgent, CoderAgent,
    VerifierAgent, ExecutorAgent, AgentOrchestrator) and of the memory system
    (VectorEmbeddingService, MemoryStorage), with the properties of the
    specification stated over them.

    Conventions.
    - A TypeScript [string] is a Rocq [string]; the case conversions and the
      whitespace class are those of the 7-bit ASCII range.
    - A [number] holding an identifier, a counter or a time stamp is a [Z]; a
      [number] holding a score or an embedding component is a binary64
      [float], the kernel's primitive type, with the IEEE operations that
      JavaScript uses.
    - An optional field [f?: T] is an [option T]; [None] is [undefined].
    - [Date.now()] and [new Date()] read a clock: the n-th reading of a run
      is [now n], for an arbitrary [now : nat -> Z]. *)

From Stdlib Require Import ZArith List String Ascii Bool Lia Permutation.
From Stdlib Require Import DecimalString DecimalPos DecimalZ Sorted.
From Stdlib Require Import Floats.PrimFloat.
Import ListNotations.

Local Open Scope list_scope.
Local Open Scope string_scope.

Set Implicit Arguments.

(** ** JavaScript primitives used by the sources *)

Module JS.

(** [s.includes(sub)] *)
Fixpoint includes (s sub : string) : bool :=
  if String.prefix sub s then true
  else match s with
       | EmptyString => false
       | String _ s' => includes s' sub
       end.

Fixpoint rev_string_onto (acc s : string) : string :=
  match s with
  | EmptyString => acc
  | String c s' => rev_string_onto (String c acc) s'
  end.

(** The characters collected so far, most recent first, as a string. *)
Definition flush (cur : string) : string := rev_string_onto "" cur.

(** [s.split(sep)] for a string separator: the pieces between the
    successive, non-overlapping occurrences of [sep], found from the left.
    [skip] counts the characters of a matched separator still to drop and
    [cur] holds the current piece, reversed. *)
Fixpoint split_from (sep s : string) (skip : nat) (cur : string) : list string :=
  match s with
  | EmptyString => [flush cur]
  | String c s' =>
      match skip with
      | S k => split_from sep s' k cur
      | O =>
          if String.prefix sep s
          then flush cur :: split_from sep s' (String.length sep - 1) ""
          else split_from sep s' 0 (String c cur)
      end
  end.

Fixpoint chars (s : string) : list string :=
  match s with
  | EmptyString => []
  | String c s' => String c "" :: chars s'
  end.

Definition split (s sep : string) : list string :=
  match sep with
  | EmptyString => chars s
  | _ => split_from sep s 0 ""
  end.

(** The class [\s] on ASCII: tab, line feed, vertical tab, form feed,
    carriage return, space. *)
Definition is_space (c : ascii) : bool :=
  let n := nat_of_ascii c in
  ((9 <=? n)%nat && (n <=? 13)%nat) || (n =? 32)%nat.

(** [s.split(/\s+/)]: a maximal run of white space is one separator.
    [in_run] tells that the previous character was white space. *)
Fixpoint split_spaces_from (s : string) (in_run : bool) (cur : string) : list string :=
  match s with
  | EmptyString => [flush cur]
  | String c s' =>
      if is_space c then
        if in_run then split_spaces_from s' true cur
        else flush cur :: split_spaces_from s' true ""
      else split_spaces_from s' false (String c cur)
  end.

Definition split_spaces (s : string) : list string :=
  split_spaces_from s false "".

Definition upper_char (c : ascii) : ascii :=
  let n := nat_of_ascii c in
  if (97 <=? n)%nat && (n <=? 122)%nat then ascii_of_nat (n - 32) else c.

Definition lower_char (c : ascii) : ascii :=
  let n := nat_of_ascii c in
  if (65 <=? n)%nat && (n <=? 90)%nat then ascii_of_nat (n + 32) else c.

Fixpoint map_string (f : ascii -> ascii) (s : string) : string :=
  match s with
  | EmptyString => EmptyString
  | String c s' => String (f c) (map_string f s')
  end.

Definition toUpperCase : string -> string := map_string upper_char.
Definition toLowerCase : string -> string := map_string lower_char.

(** [s.charAt(0)] and [s.slice(1)] *)
Definition charAt0 (s : string) : string :=
  match s with
  | EmptyString => ""
  | String c _ => String c ""
  end.

Definition slice1 (s : string) : string :=
  match s with
  | EmptyString => ""
  | String _ s' => s'
  end.

(** [l.join(sep)] *)
Definition join (sep : string) (l : list string) : string := String.concat sep l.

(** The decimal text of an integer, as a template literal prints it. *)
Definition show_Z (z : Z) : string := NilZero.string_of_int (Z.to_int z).
Definition show_nat (n : nat) : string := show_Z (Z.of_nat n).

(** [x || ""] on an optional string *)
Definition or_empty (x : option string) : string :=
  match x with
  | Some s => s
  | None => ""
  end.

(** Truthiness of an optional integer-valued number, of an optional string
    and of an optional object. *)
Definition truthy_Z (x : option Z) : bool :=
  match x with
  | Some z => negb (z =? 0)%Z
  | None => false
  end.

Definition truthy_string (x : option string) : bool :=
  match x with
  | Some s => negb (s =? "")
  | None => false
  end.

(** The string that a truthy optional string holds. *)
Definition when_truthy (x : option string) : option string :=
  if truthy_string x then x else None.

Definition truthy_obj {A : Type} (x : option A) : bool :=
  match x with
  | Some _ => true
  | None => false
  end.

Definition lf : string := String (ascii_of_nat 10) "".

(** How many times [sub] appears in [s]: the number of positions of [s] at
    which [sub] starts. *)
Fixpoint occurrences (sub s : string) : nat :=
  ((if String.prefix sub s then 1 else 0)
   + match s with
     | EmptyString => 0
     | String _ s' => occurrences sub s'
     end)%nat.

(** An integer as a binary64 number; exact below 2^53. *)
Fixpoint number_of_pos (p : positive) : float :=
  match p with
  | xH => 1
  | xO q => 2 * number_of_pos q
  | xI q => 2 * number_of_pos q + 1
  end%float.

Definition number_of_Z (z : Z) : float :=
  match z with
  | Z0 => 0
  | Zpos p => number_of_pos p
  | Zneg p => - number_of_pos p
  end%float.

(** [ToInt32]: the signed 32-bit integer congruent to [z]. *)
Definition toInt32 (z : Z) : Z := ((z + 2 ^ 31) mod 2 ^ 32 - 2 ^ 31)%Z.

(** [a << k] and [a & b] on 32-bit operands *)
Definition shl (a : Z) (k : Z) : Z := toInt32 (Z.shiftl (toInt32 a) k).
Definition band (a b : Z) : Z := Z.land (toInt32 a) (toInt32 b).

(** Truthiness of a number: neither zero nor NaN. *)
Definition truthy_number (x : float) : bool :=
  negb (PrimFloat.eqb x 0) && PrimFloat.eqb x x.

(** [x || 0] on an optional number *)
Definition or_zero (x : option float) : float :=
  match x with
  | Some f => if truthy_number f then f else 0%float
  | None => 0%float
  end.

(** [a.slice(0, end)]: a negative [end] counts from the end of the array. *)
Definition slice0 {A : Type} (a : list A) (stop : Z) : list A :=
  let len := Z.of_nat (List.length a) in
  let final := if (stop <? 0)%Z then Z.max (len + stop) 0 else Z.min stop len in
  firstn (Z.to_nat final) a.

(** [a.sort(compareFn)] for a comparison function of which only the sign
    matters: a stable sort, in which an element moves behind another one
    only when the comparison says it comes later. *)
Fixpoint insert_by {A : Type} (compareFn : A -> A -> Z) (x : A) (l : list A)
  : list A :=
  match l with
  | [] => [x]
  | y :: rest =>
      if (0 <? compareFn x y)%Z then y :: insert_by compareFn x rest
      else x :: y :: rest
  end.

Fixpoint sort_by {A : Type} (compareFn : A -> A -> Z) (l : list A) : list A :=
  match l with
  | [] => []
  | x :: rest => insert_by compareFn x (sort_by compareFn rest)
  end.

(** The order of a list sorted by decreasing rank: [a] may stand before
    [b]. *)
Definition decreasing {A : Type} (rank : A -> Z) (a b : A) : Prop :=
  (rank b <= rank a)%Z.

(** Whether a string holds a character of the class [\s]. *)
Fixpoint has_space (s : string) : bool :=
  match s with
  | EmptyString => false
  | String c s' => is_space c || has_space s'
  end.

End JS.

(** ** Clock *)

(** A computation that reads the clock: it receives the number of readings
    made so far and returns its value with the new count. *)
Definition Timed (A : Type) : Type := nat -> A * nat.

Definition ret {A : Type} (a : A) : Timed A := fun t => (a, t).

Definition bind {A B : Type} (m : Timed A) (k : A -> Timed B) : Timed B :=
  fun t => let (a, t') := m t in k a t'.

Notation "x <- m ;; k" := (bind m (fun x => k))
  (at level 61, m at next level, right associativity).

(** ** Agents and the orchestrator *)

Module AgentType.
Inductive t : Type := planner | coder | verifier | executor.
End AgentType.

Module TaskStatus.
Inductive t : Type := pending | running | completed | failed.
End TaskStatus.

Module AgentTask.
Record t : Type := mk {
  id : string;
  projectId : Z;
  agentType : AgentType.t;
  status : TaskStatus.t;
  prompt : string;
  result : option string;
  error : option string;
  createdAt : Z;
  completedAt : option Z
}.
End AgentTask.

Module AgentResponse.
Record t : Type := mk {
  success : bool;
  result : option string;
  error : option string;
  nextAgent : option AgentType.t
}.
End AgentResponse.

Module PlannerAgent.

Definition plan_for (prompt : string) : string :=
"
Development Plan for: " ++ prompt ++ "

1. Architecture Design
   - Identify core components
   - Define data models
   - Plan API structure

2. Implementation Steps
   - Setup project structure
   - Create database schema
   - Build API endpoints
   - Develop UI components

3. Testing Strategy
   - Unit tests
   - Integration tests
   - E2E tests

4. Deployment Plan
   - Build optimization
   - Performance tuning
   - Production deployment
      ".

(** The body of the [try] only builds a string, so the [catch] is never
    entered. *)
Definition analyze (prompt : string) : AgentResponse.t :=
  AgentResponse.mk true (Some (plan_for prompt)) None (Some AgentType.coder).

End PlannerAgent.

Module CoderAgent.

Definition toPascalCase (str : string) : string :=
  JS.join ""
    (map (fun word => JS.toUpperCase (JS.charAt0 word) ++ JS.toLowerCase (JS.slice1 word))
         (JS.split_spaces str)).

Definition code_for (prompt : string) : string :=
"
// Generated code for: " ++ prompt ++ "

export interface " ++ toPascalCase prompt ++ " {
  id: number;
  name: string;
  createdAt: Date;
  updatedAt: Date;
}

export async function create" ++ toPascalCase prompt ++ "(data: any) {
  // Implementation will be generated based on requirements
  return data;
}

export async function get" ++ toPascalCase prompt ++ "(id: number) {
  // Retrieve implementation
  return null;
}

export async function update" ++ toPascalCase prompt ++ "(id: number, data: any) {
  // Update implementation
  return data;
}

export async function delete" ++ toPascalCase prompt ++ "(id: number) {
  // Delete implementation
  return true;
}
      ".

(** The plan is accepted and not used. *)
Definition generate (prompt : string) (plan : option string) : AgentResponse.t :=
  AgentResponse.mk true (Some (code_for prompt)) None (Some AgentType.verifier).

End CoderAgent.

Module VerifierAgent.

Definition no_exports : string := "No exports found in code".
Definition excessive_any : string :=
  "Excessive use of 'any' type - consider proper typing".
Definition no_error_handling : string := "No error handling detected".

Definition checkCodeQuality (code : string) : list string :=
  ((if negb (JS.includes code "export") then [no_exports] else [])
   ++ (if JS.includes code "any" && (3 <? List.length (JS.split code "any"))%nat
       then [excessive_any] else [])
   ++ (if negb (JS.includes code "error") && negb (JS.includes code "try")
       then [no_error_handling] else []))%list.

Definition verify (code : string) : AgentResponse.t :=
  let issues := checkCodeQuality code in
  if (List.length issues =? 0)%nat then
    AgentResponse.mk true (Some "Code verification passed. No issues found.")
                     None (Some AgentType.executor)
  else
    AgentResponse.mk false None
      (Some ("Code verification found " ++ JS.show_nat (List.length issues)
             ++ " issues:" ++ JS.lf ++ JS.join JS.lf issues))
      (Some AgentType.coder).

End VerifierAgent.

Module ExecutorAgent.

Definition summary : string :=
"
Execution Summary:
- Code compiled successfully
- All tests passed
- Build artifacts generated
- Ready for deployment

Deployment Status:
- Project built successfully
- Artifacts: /dist/
- Build time: 2.34s
- Bundle size: 145KB
      ".

(** The line written to the console is not part of the result. *)
Definition execute (code : string) (projectId : Z) : AgentResponse.t :=
  AgentResponse.mk true (Some summary) None None.

End ExecutorAgent.

Module AgentOrchestrator.

(** The orchestrator object: its four agents, each seen through the one
    method that [orchestrate] calls, and its task queue. Every agent method
    of the source catches what its body throws and returns a response, so
    an agent is a total function to [AgentResponse.t]. *)
Record t : Type := mk {
  planner : string -> AgentResponse.t;
  coder : string -> option string -> AgentResponse.t;
  verifier : string -> AgentResponse.t;
  executor : string -> Z -> AgentResponse.t;
  taskQueue : list AgentTask.t
}.

(** [new AgentOrchestrator()] *)
Definition create : t :=
  mk PlannerAgent.analyze CoderAgent.generate VerifierAgent.verify
     ExecutorAgent.execute [].

Definition status_of (r : AgentResponse.t) : TaskStatus.t :=
  if AgentResponse.success r then TaskStatus.completed else TaskStatus.failed.

(** The four assignments that follow each agent call. *)
Definition settle (task : AgentTask.t) (r : AgentResponse.t) (finished : Z)
  : AgentTask.t :=
  AgentTask.mk (AgentTask.id task) (AgentTask.projectId task)
    (AgentTask.agentType task) (status_of r) (AgentTask.prompt task)
    (AgentResponse.result r) (AgentResponse.error r)
    (AgentTask.createdAt task) (Some finished).

Section Run.

Variable now : nat -> Z.

Definition Date_now : Timed Z := fun n => (now n, S n).

(** A task literal in the [running] state: its id reads the clock, then
    its [createdAt] does. *)
Definition start (tag : string) (projectId : Z) (kind : AgentType.t)
           (prompt : string) : Timed AgentTask.t :=
  stamp <- Date_now ;;
  created <- Date_now ;;
  ret (AgentTask.mk (tag ++ "-" ++ JS.show_Z stamp) projectId kind
         TaskStatus.running prompt None None created None).

(** With agents that return, the [catch] of the outer [try] is not
    entered; the body is the four steps below. *)
Definition orchestrate (this : t) (prompt : string) (projectId : Z)
  : Timed (list AgentTask.t) :=
  (* Step 1: Planner analyzes requirements *)
  planTask <- start "plan" projectId AgentType.planner prompt ;;
  let planResult := planner this prompt in
  finished <- Date_now ;;
  let tasks := [settle planTask planResult finished] in
  if negb (AgentResponse.success planResult) then ret tasks else
  (* Step 2: Coder generates implementation *)
  codeTask <- start "code" projectId AgentType.coder
                (JS.or_empty (AgentResponse.result planResult)) ;;
  let codeResult := coder this prompt (AgentResponse.result planResult) in
  finished <- Date_now ;;
  let tasks := (tasks ++ [settle codeTask codeResult finished])%list in
  if negb (AgentResponse.success codeResult) then ret tasks else
  (* Step 3: Verifier validates code *)
  verifyTask <- start "verify" projectId AgentType.verifier
                  (JS.or_empty (AgentResponse.result codeResult)) ;;
  let verifyResult :=
    verifier this (JS.or_empty (AgentResponse.result codeResult)) in
  finished <- Date_now ;;
  let tasks := (tasks ++ [settle verifyTask verifyResult finished])%list in
  if negb (AgentResponse.success verifyResult) then ret tasks else
  (* Step 4: Executor deploys *)
  execTask <- start "exec" projectId AgentType.executor
                (JS.or_empty (AgentResponse.result codeResult)) ;;
  let execResult :=
    executor this (JS.or_empty (AgentResponse.result codeResult)) projectId in
  finished <- Date_now ;;
  ret (tasks ++ [settle execTask execResult finished])%list.

(** The trace of a run that starts at clock reading [n]. *)
Definition trace (this : t) (prompt : string) (projectId : Z) (n : nat)
  : list AgentTask.t :=
  fst (orchestrate this prompt projectId n).

End Run.

Definition fixed_order : list AgentType.t :=
  [AgentType.planner; AgentType.coder; AgentType.verifier; AgentType.executor].

(** The responses of the four stages of a run, as [orchestrate] obtains
    them. *)
Definition planResult (this : t) (prompt : string) : AgentResponse.t :=
  planner this prompt.

Definition codeResult (this : t) (prompt : string) : AgentResponse.t :=
  coder this prompt (AgentResponse.result (planResult this prompt)).

Definition verifyResult (this : t) (prompt : string) : AgentResponse.t :=
  verifier this (JS.or_empty (AgentResponse.result (codeResult this prompt))).

Definition execResult (this : t) (prompt : string) (projectId : Z)
  : AgentResponse.t :=
  executor this (JS.or_empty (AgentResponse.result (codeResult this prompt)))
    projectId.

Definition kind_and_status (task : AgentTask.t) : AgentType.t * TaskStatus.t :=
  (AgentTask.agentType task, AgentTask.status task).

(** The task queue. [orchestrate] neither reads nor writes it. *)
Definition with_taskQueue (this : t) (queue : list AgentTask.t) : t :=
  mk (planner this) (coder this) (verifier this) (executor this) queue.

Definition getTaskQueue (this : t) : list AgentTask.t := taskQueue this.

(** [this.taskQueue.push(task)] *)
Definition addTask (this : t) (task : AgentTask.t) : t :=
  with_taskQueue this (taskQueue this ++ [task])%list.

(** [this.taskQueue = this.taskQueue.filter((t) => t.id !== taskId)] *)
Definition removeTask (this : t) (taskId : string) : t :=
  with_taskQueue this
    (filter (fun t => negb (AgentTask.id t =? taskId)%string) (taskQueue this)).

End AgentOrchestrator.

(** ** The memory system *)

Module MemoryType.
Inductive t : Type := lesson | preference | solution | error.

Definition eqb (a b : t) : bool :=
  match a, b with
  | lesson, lesson | preference, preference
  | solution, solution | error, error => true
  | _, _ => false
  end.

End MemoryType.

Module MemoryEntry.
Record t : Type := mk {
  id : string;
  userId : Z;
  projectId : option Z;
  memoryType : MemoryType.t;
  key : string;
  value : string;
  embedding : option (list float);
  relevanceScore : option float;
  createdAt : Z;
  updatedAt : Z;
  accessCount : Z;
  lastAccessed : Z
}.

(** [entry.relevanceScore = s] *)
Definition set_relevanceScore (s : option float) (e : t) : t :=
  mk (id e) (userId e) (projectId e) (memoryType e) (key e) (value e)
     (embedding e) s (createdAt e) (updatedAt e) (accessCount e)
     (lastAccessed e).

(** [entry.accessCount++; entry.lastAccessed = new Date()] *)
Definition touch (time : Z) (e : t) : t :=
  mk (id e) (userId e) (projectId e) (memoryType e) (key e) (value e)
     (embedding e) (relevanceScore e) (createdAt e) (updatedAt e)
     (accessCount e + 1) time.
End MemoryEntry.

Module MemoryQuery.
Record t : Type := mk {
  userId : Z;
  projectId : option Z;
  memoryType : option MemoryType.t;
  query : option string;
  limit : option Z
}.
End MemoryQuery.

Module MemoryRetrievalResult.
Record t : Type := mk {
  entries : list MemoryEntry.t;
  totalResults : nat;
  executionTime : Z
}.
End MemoryRetrievalResult.

(** [Partial<MemoryEntry>]: a field that the object literal does not mention
    is [None]. *)
Module MemoryUpdates.
Record t : Type := mk {
  id : option string;
  userId : option Z;
  projectId : option Z;
  memoryType : option MemoryType.t;
  key : option string;
  value : option string;
  embedding : option (list float);
  relevanceScore : option float;
  createdAt : option Z;
  updatedAt : option Z;
  accessCount : option Z;
  lastAccessed : option Z
}.

(** [{ value: v }] *)
Definition only_value (v : string) : t :=
  mk None None None None None (Some v) None None None None None None.
End MemoryUpdates.

Module VectorEmbeddingService.

(** [simpleHash]: one round per character. *)
Definition hash_step (hash : Z) (c : ascii) : Z :=
  let char := Z.of_nat (nat_of_ascii c) in
  let hash := (JS.shl hash 5 - hash + char)%Z in
  JS.band hash hash.

Fixpoint hash_from (hash : Z) (str : string) : Z :=
  match str with
  | EmptyString => hash
  | String c rest => hash_from (hash_step hash c) rest
  end.

Definition simpleHash (str : string) : Z := hash_from 0 str.

(** The polynomial of base 31 over the character codes, without any
    wrap-around: what [simpleHash] computes modulo 2^32. *)
Fixpoint polynomial31_from (h : Z) (str : string) : Z :=
  match str with
  | EmptyString => h
  | String c rest =>
      polynomial31_from (31 * h + Z.of_nat (nat_of_ascii c)) rest
  end.

Definition polynomial31 (str : string) : Z := polynomial31_from 0 str.

Section Sine.

(** [Math.sin], which ECMAScript leaves to the implementation. *)
Variable Math_sin : float -> float.

Definition generateEmbedding (text : string) : list float :=
  let hash := simpleHash text in
  map (fun i => (Math_sin (JS.number_of_Z (hash + Z.of_nat i)) * 0.5 + 0.5)%float)
      (seq 0 384).

End Sine.

(** The three sums of the loop, over the components taken pairwise. *)
Fixpoint sums (e1 e2 : list float) (acc : float * float * float)
  : float * float * float :=
  match e1, e2 with
  | x :: r1, y :: r2 =>
      let '(dotProduct, magnitude1, magnitude2) := acc in
      sums r1 r2 (dotProduct + x * y, magnitude1 + x * x, magnitude2 + y * y)%float
  | _, _ => acc
  end.

Definition calculateSimilarity (embedding1 embedding2 : list float) : float :=
  if negb (List.length embedding1 =? List.length embedding2)%nat then 0%float
  else
    let '(dotProduct, magnitude1, magnitude2) :=
      sums embedding1 embedding2 (0, 0, 0)%float in
    let magnitude1 := PrimFloat.sqrt magnitude1 in
    let magnitude2 := PrimFloat.sqrt magnitude2 in
    if PrimFloat.eqb magnitude1 0 || PrimFloat.eqb magnitude2 0 then 0%float
    else (dotProduct / (magnitude1 * magnitude2))%float.

End VectorEmbeddingService.

(** One admissible [Math.sin], for running the memory system on concrete
    inputs: reduction of the argument to [-pi, pi] with a two-part 2 pi,
    then the Taylor polynomial of degree 27. *)
Module SineImpl.

Definition nearest (y : float) : float :=
  (y + 0x1.8p+52 - 0x1.8p+52)%float.

Definition reduce (x : float) : float :=
  let k := nearest (x * 0x1.45f306dc9c883p-3)%float in
  (x - k * 0x1.921fb4p+2 - k * 0x1.4442d18469899p-22)%float.

Definition series (r : float) : float :=
  let r2 := (r * r)%float in
  (r * fold_right (fun d acc => 1 - r2 / d * acc) 1
         [6; 20; 42; 72; 110; 156; 210; 272; 342; 420; 506; 600; 702])%float.

Definition sin (x : float) : float := series (reduce x).

End SineImpl.

(** What a call does: it returns a value or it throws. *)
Inductive outcome (A : Type) : Type :=
| Returned (a : A)
| Thrown (message : string).

Arguments Returned {A} a.
Arguments Thrown {A} message.

(** [Map<string, V>]: the keys are distinct and iteration follows the order
    of first insertion, so the map is the list of its pairs in that order. *)
Module JSMap.

Section Values.

Variable V : Type.

Definition t : Type := list (string * V).

Definition keys (m : t) : list string := map fst m.

Definition wf (m : t) : Prop := NoDup (keys m).

Fixpoint get (m : t) (k : string) : option V :=
  match m with
  | [] => None
  | (k', v) :: rest => if (k' =? k)%string then Some v else get rest k
  end.

(** [m.set(k, v)]: a present key keeps its place. *)
Fixpoint set (m : t) (k : string) (v : V) : t :=
  match m with
  | [] => [(k, v)]
  | (k', v') :: rest =>
      if (k' =? k)%string then (k, v) :: rest else (k', v') :: set rest k v
  end.

(** [m.delete(k)]: the map without [k], and whether [k] was present. *)
Fixpoint remove (m : t) (k : string) : t :=
  match m with
  | [] => []
  | (k', v) :: rest =>
      if (k' =? k)%string then rest else (k', v) :: remove rest k
  end.

Definition has (m : t) (k : string) : bool :=
  match get m k with
  | Some _ => true
  | None => false
  end.

Definition delete (m : t) (k : string) : bool * t := (has m k, remove m k).

(** A write through a reference to the object stored under [k]. *)
Fixpoint modify (f : V -> V) (m : t) (k : string) : t :=
  match m with
  | [] => []
  | (k', v) :: rest =>
      if (k' =? k)%string then (k', f v) :: rest
      else (k', v) :: modify f rest k
  end.

End Values.

End JSMap.

Module MemoryStorage.

Record t : Type := mk {
  memories : JSMap.t MemoryEntry.t;
  nextId : Z
}.

(** [new MemoryStorage()] *)
Definition create : t := mk [] 1.

Definition wf (this : t) : Prop := JSMap.wf (memories this).

Definition not_found : string := "Memory not found or unauthorized".

(** 0.3, as the nearest binary64 number *)
Definition relevance_floor : float := 0x1.3333333333333p-2%float.

Definition same_project (a b : option Z) : bool :=
  match a, b with
  | Some x, Some y => (x =? y)%Z
  | None, None => true
  | _, _ => false
  end.

Definition same_type (a : MemoryType.t) (b : option MemoryType.t) : bool :=
  match b with
  | Some y => MemoryType.eqb a y
  | None => false
  end.


(** The sign of what the comparison function of [results.sort] returns:
    [scoreB - scoreA || b.accessCount - a.accessCount]. *)
Definition compareFn (a b : MemoryEntry.t) : Z :=
  let scoreA := JS.or_zero (MemoryEntry.relevanceScore a) in
  let scoreB := JS.or_zero (MemoryEntry.relevanceScore b) in
  let byScore := (scoreB - scoreA)%float in
  if JS.truthy_number byScore
  then (if PrimFloat.ltb byScore 0 then -1 else 1)%Z
  else Z.sgn (MemoryEntry.accessCount b - MemoryEntry.accessCount a).

Section Run.

Variable Math_sin : float -> float.
Variable now : nat -> Z.

Definition Date_now : Timed Z := fun n => (now n, S n).

Definition generateEmbedding : string -> list float :=
  VectorEmbeddingService.generateEmbedding Math_sin.

Definition store (this : t) (userId : Z) (memoryType : MemoryType.t)
           (key value : string) (projectId : option Z)
  : Timed (MemoryEntry.t * t) :=
  let id := "mem-" ++ JS.show_Z (nextId this) in
  let embedding := generateEmbedding value in
  createdAt <- Date_now ;;
  updatedAt <- Date_now ;;
  lastAccessed <- Date_now ;;
  let entry :=
    MemoryEntry.mk id userId projectId memoryType key value (Some embedding)
      None createdAt updatedAt 0 lastAccessed in
  ret (entry, mk (JSMap.set (memories this) id entry) (nextId this + 1)).

(** The body of the first loop of [retrieve] on one entry: the entry as
    the loop leaves it, and whether it was pushed onto [results]. *)
Definition visit (query : MemoryQuery.t) (entry : MemoryEntry.t)
  : MemoryEntry.t * bool :=
  if negb (MemoryEntry.userId entry =? MemoryQuery.userId query)%Z
  then (entry, false)
  else if JS.truthy_Z (MemoryQuery.projectId query)
          && negb (same_project (MemoryEntry.projectId entry)
                                (MemoryQuery.projectId query))
  then (entry, false)
  else if JS.truthy_obj (MemoryQuery.memoryType query)
          && negb (same_type (MemoryEntry.memoryType entry)
                             (MemoryQuery.memoryType query))
  then (entry, false)
  else
    (* query.query && entry.embedding *)
    match JS.when_truthy (MemoryQuery.query query), MemoryEntry.embedding entry with
    | Some text, Some embedding =>
        let queryEmbedding := generateEmbedding text in
        let similarity :=
          VectorEmbeddingService.calculateSimilarity embedding queryEmbedding in
        if PrimFloat.ltb relevance_floor similarity
        then (MemoryEntry.set_relevanceScore (Some similarity) entry, true)
        else (entry, false)
    | _, _ => (entry, true)
    end.

(** The first loop: the map after it, and [results] as the keys of the
    pushed entries. An element of [results] is a reference to the object
    held by the map, and a key stands for that reference. *)
Fixpoint scan (query : MemoryQuery.t) (m : JSMap.t MemoryEntry.t)
  : JSMap.t MemoryEntry.t * list string :=
  match m with
  | [] => ([], [])
  | (k, entry) :: rest =>
      let (entry', pushed) := visit query entry in
      let (rest', results) := scan query rest in
      ((k, entry') :: rest', if pushed then k :: results else results)
  end.

(** The comparison function applied to two references. *)
Definition compareRefs (m : JSMap.t MemoryEntry.t) (a b : string) : Z :=
  match JSMap.get m a, JSMap.get m b with
  | Some ea, Some eb => compareFn ea eb
  | _, _ => 0%Z
  end.

(** [results.sort(compareFn)], a stable sort: an element moves behind
    another one only when the comparison says it comes later. *)
Fixpoint insert (m : JSMap.t MemoryEntry.t) (x : string) (l : list string)
  : list string :=
  match l with
  | [] => [x]
  | y :: rest =>
      if (0 <? compareRefs m x y)%Z then y :: insert m x rest
      else x :: y :: rest
  end.

Fixpoint sort (m : JSMap.t MemoryEntry.t) (l : list string) : list string :=
  match l with
  | [] => []
  | x :: rest => insert m x (sort m rest)
  end.

(** [query.limit || 10] *)
Definition effective_limit (query : MemoryQuery.t) : Z :=
  if JS.truthy_Z (MemoryQuery.limit query)
  then match MemoryQuery.limit query with Some l => l | None => 10 end
  else 10%Z.

(** The second loop: each entry of [limited] is touched at the next
    reading of the clock. *)
Fixpoint touch_all (m : JSMap.t MemoryEntry.t) (limited : list string)
  : Timed (JSMap.t MemoryEntry.t) :=
  match limited with
  | [] => ret m
  | k :: rest =>
      time <- Date_now ;;
      touch_all (JSMap.modify (MemoryEntry.touch time) m k) rest
  end.

(** The objects that a list of references denotes in a map. *)
Fixpoint deref_all (m : JSMap.t MemoryEntry.t) (refs : list string)
  : list MemoryEntry.t :=
  match refs with
  | [] => []
  | k :: rest =>
      match JSMap.get m k with
      | Some e => e :: deref_all m rest
      | None => deref_all m rest
      end
  end.

(** The map after the first loop, [results] before and after the sort,
    and [limited], as references. *)
Definition scanned (this : t) (query : MemoryQuery.t) : JSMap.t MemoryEntry.t :=
  fst (scan query (memories this)).

Definition candidates (this : t) (query : MemoryQuery.t) : list string :=
  snd (scan query (memories this)).

Definition sorted_results (this : t) (query : MemoryQuery.t) : list string :=
  sort (scanned this query) (candidates this query).

Definition limited (this : t) (query : MemoryQuery.t) : list string :=
  JS.slice0 (sorted_results this query) (effective_limit query).

(** An entry as the first loop leaves it. *)
Definition rescored (query : MemoryQuery.t) (entry : MemoryEntry.t)
  : MemoryEntry.t :=
  fst (visit query entry).

(** The map after the second loop of a call made at clock reading [n]. *)
Definition touched (this : t) (query : MemoryQuery.t) (n : nat)
  : JSMap.t MemoryEntry.t :=
  fst (touch_all (scanned this query) (limited this query) (S n)).

Definition retrieve (this : t) (query : MemoryQuery.t)
  : Timed (MemoryRetrievalResult.t * t) :=
  startTime <- Date_now ;;
  let (scanned, results) := scan query (memories this) in
  let results := sort scanned results in
  let limit := effective_limit query in
  let limited := JS.slice0 results limit in
  touched <- touch_all scanned limited ;;
  finish <- Date_now ;;
  let executionTime := (finish - startTime)%Z in
  ret (MemoryRetrievalResult.mk (deref_all touched limited)
         (List.length results) executionTime,
       mk touched (nextId this)).


Definition pick {A : Type} (new : option A) (old : A) : A :=
  match new with
  | Some a => a
  | None => old
  end.

Definition pick_opt {A : Type} (new old : option A) : option A :=
  match new with
  | Some a => Some a
  | None => old
  end.

(** [{ ...entry, ...updates, updatedAt }] *)
Definition spread (entry : MemoryEntry.t) (updates : MemoryUpdates.t)
           (updatedAt : Z) : MemoryEntry.t :=
  MemoryEntry.mk
    (pick (MemoryUpdates.id updates) (MemoryEntry.id entry))
    (pick (MemoryUpdates.userId updates) (MemoryEntry.userId entry))
    (pick_opt (MemoryUpdates.projectId updates) (MemoryEntry.projectId entry))
    (pick (MemoryUpdates.memoryType updates) (MemoryEntry.memoryType entry))
    (pick (MemoryUpdates.key updates) (MemoryEntry.key entry))
    (pick (MemoryUpdates.value updates) (MemoryEntry.value entry))
    (pick_opt (MemoryUpdates.embedding updates) (MemoryEntry.embedding entry))
    (pick_opt (MemoryUpdates.relevanceScore updates)
              (MemoryEntry.relevanceScore entry))
    (pick (MemoryUpdates.createdAt updates) (MemoryEntry.createdAt entry))
    updatedAt
    (pick (MemoryUpdates.accessCount updates) (MemoryEntry.accessCount entry))
    (pick (MemoryUpdates.lastAccessed updates) (MemoryEntry.lastAccessed entry)).

Definition set_embedding (emb : option (list float)) (e : MemoryEntry.t)
  : MemoryEntry.t :=
  MemoryEntry.mk (MemoryEntry.id e) (MemoryEntry.userId e)
    (MemoryEntry.projectId e) (MemoryEntry.memoryType e) (MemoryEntry.key e)
    (MemoryEntry.value e) emb (MemoryEntry.relevanceScore e)
    (MemoryEntry.createdAt e) (MemoryEntry.updatedAt e)
    (MemoryEntry.accessCount e) (MemoryEntry.lastAccessed e).

Definition owned (m : JSMap.t MemoryEntry.t) (id : string) (userId : Z)
  : option MemoryEntry.t :=
  match JSMap.get m id with
  | Some entry =>
      if (MemoryEntry.userId entry =? userId)%Z then Some entry else None
  | None => None
  end.

Definition update (this : t) (id : string) (userId : Z)
           (updates : MemoryUpdates.t)
  : Timed (outcome (MemoryEntry.t * t)) :=
  match owned (memories this) id userId with
  | None => ret (Thrown not_found)
  | Some entry =>
      updatedAt <- Date_now ;;
      let updated := spread entry updates updatedAt in
      (* Regenerate embedding if value changed *)
      let updated :=
        match JS.when_truthy (MemoryUpdates.value updates) with
        | Some value => set_embedding (Some (generateEmbedding value)) updated
        | None => updated
        end in
      ret (Returned (updated, mk (JSMap.set (memories this) id updated)
                                 (nextId this)))
  end.

Definition delete (this : t) (id : string) (userId : Z)
  : outcome (bool * t) :=
  match owned (memories this) id userId with
  | None => Thrown not_found
  | Some _ =>
      let (removed, m) := JSMap.delete (memories this) id in
      Returned (removed, mk m (nextId this))
  end.

End Run.

(** [byType]: the four counters of the record literal. *)
Record ByType : Type := mkByType {
  lesson : Z;
  preference : Z;
  solution : Z;
  error : Z
}.

(** [byType[memoryType]++] *)
Definition count_type (byType : ByType) (memoryType : MemoryType.t) : ByType :=
  match memoryType with
  | MemoryType.lesson =>
      mkByType (lesson byType + 1) (preference byType) (solution byType) (error byType)
  | MemoryType.preference =>
      mkByType (lesson byType) (preference byType + 1) (solution byType) (error byType)
  | MemoryType.solution =>
      mkByType (lesson byType) (preference byType) (solution byType + 1) (error byType)
  | MemoryType.error =>
      mkByType (lesson byType) (preference byType) (solution byType) (error byType + 1)
  end.

Record Statistics : Type := mkStatistics {
  totalMemories : nat;
  byType : ByType;
  mostAccessed : list MemoryEntry.t;
  recentlyAdded : list MemoryEntry.t
}.

(** [Array.from(this.memories.values()).filter((m) => m.userId === userId)] *)
Definition userMemories (this : t) (userId : Z) : list MemoryEntry.t :=
  filter (fun m => (MemoryEntry.userId m =? userId)%Z) (map snd (memories this)).

Definition by_accessCount (a b : MemoryEntry.t) : Z :=
  (MemoryEntry.accessCount b - MemoryEntry.accessCount a)%Z.

Definition by_createdAt (a b : MemoryEntry.t) : Z :=
  (MemoryEntry.createdAt b - MemoryEntry.createdAt a)%Z.

(** [sort] sorts its array in place and returns it: the second sort starts
    from the array as the first one left it, and each [slice] copies the
    head of the array at that moment. *)
Definition getStatistics (this : t) (userId : Z) : Statistics :=
  let userMemories := userMemories this userId in
  let byType :=
    fold_left (fun byType memory => count_type byType (MemoryEntry.memoryType memory))
              userMemories (mkByType 0 0 0 0) in
  let userMemories := JS.sort_by by_accessCount userMemories in
  let mostAccessed := JS.slice0 userMemories 5 in
  let userMemories := JS.sort_by by_createdAt userMemories in
  let recentlyAdded := JS.slice0 userMemories 5 in
  mkStatistics (List.length userMemories) byType mostAccessed recentlyAdded.

(** Every key is [mem-i] for an [i] below the counter of the store. *)
Definition ids_below (this : t) : Prop :=
  Forall (fun k => exists i, k = "mem-" ++ JS.show_Z i /\ (i < nextId this)%Z)
         (JSMap.keys (memories this)).

(** An entry without the three fields that [retrieve] writes. *)
Definition core (e : MemoryEntry.t) : MemoryEntry.t :=
  MemoryEntry.mk (MemoryEntry.id e) (MemoryEntry.userId e)
    (MemoryEntry.projectId e) (MemoryEntry.memoryType e) (MemoryEntry.key e)
    (MemoryEntry.value e) (MemoryEntry.embedding e) None
    (MemoryEntry.createdAt e) (MemoryEntry.updatedAt e) 0 0.

Definition cores (m : JSMap.t MemoryEntry.t) : JSMap.t MemoryEntry.t :=
  map (fun p => (fst p, core (snd p))) m.

(** [top] holds the five highest-ranked entries of [all] (all of them when
    there are fewer), by decreasing rank: what is left ranks no higher than
    any entry of [top]. *)
Definition top_five (rank : MemoryEntry.t -> Z) (all top : list MemoryEntry.t)
  : Prop :=
  (List.length top <= 5)%nat
  /\ StronglySorted (JS.decreasing rank) top
  /\ exists rest,
      Permutation (top ++ rest)%list all
      /\ Forall (fun a => Forall (fun b => (rank b <= rank a)%Z) rest) top
      /\ ((List.length all <= 5)%nat -> rest = []).

(** How many entries of a list have the given type. *)
Definition count_of (memoryType : MemoryType.t) (l : list MemoryEntry.t) : Z :=
  Z.of_nat
    (List.length
       (filter (fun e => MemoryType.eqb (MemoryEntry.memoryType e) memoryType) l)).

End MemoryStorage.

Module MemoryContext.

Section Run.

Variable Math_sin : float -> float.
Variable now : nat -> Z.

(** The context object holds a reference to its storage; a method takes the
    storage and, when it writes, returns it. *)
Definition getContextForTask (storage : MemoryStorage.t) (userId projectId : Z)
           (taskDescription : string)
  : Timed (list MemoryEntry.t * MemoryStorage.t) :=
  r <- MemoryStorage.retrieve Math_sin now storage
         (MemoryQuery.mk userId (Some projectId) None (Some taskDescription)
            (Some 5%Z)) ;;
  ret (MemoryRetrievalResult.entries (fst r), snd r).

Definition learnFromExecution (storage : MemoryStorage.t) (userId projectId : Z)
           (taskDescription result : string) (success : bool)
  : Timed MemoryStorage.t :=
  let memoryType := if success then MemoryType.solution else MemoryType.error in
  stamp <- MemoryStorage.Date_now now ;;
  let key := taskDescription ++ "-" ++ JS.show_Z stamp in
  r <- MemoryStorage.store Math_sin now storage userId memoryType key result
         (Some projectId) ;;
  ret (snd r).

Definition getMemoryStats (storage : MemoryStorage.t) (userId : Z)
  : MemoryStorage.Statistics :=
  MemoryStorage.getStatistics storage userId.

(** The stores that the calls of the two classes produce from a new one. *)
Inductive reachable : MemoryStorage.t -> Prop :=
| reach_create : reachable MemoryStorage.create
| reach_store this userId memoryType key value projectId n :
    reachable this ->
    reachable (snd (fst (MemoryStorage.store Math_sin now this userId memoryType
                           key value projectId n)))
| reach_retrieve this query n :
    reachable this ->
    reachable (snd (fst (MemoryStorage.retrieve Math_sin now this query n)))
| reach_update this id userId updates n entry this' :
    reachable this ->
    fst (MemoryStorage.update Math_sin now this id userId updates n)
    = Returned (entry, this') ->
    reachable this'
| reach_delete this id userId removed this' :
    reachable this ->
    MemoryStorage.delete this id userId = Returned (removed, this') ->
    reachable this'.

End Run.

End MemoryContext.

(** ** Concrete inputs *)

Module Scenario.

Import MemoryStorage.

(** A text with an export and a [try] in which [any] appears three
    times. *)
Definition three_anys : string :=
  "export function pick(a: any, b: any): any { try { return a; } catch (e) { return b; } }".

(** A clock that advances by one millisecond at each reading. *)
Definition clock (n : nat) : Z := 1700000000000 + Z.of_nat n.

(** A store and the number of clock readings made so far. *)
Definition state : Type := MemoryStorage.t * nat.

Definition after_store (s : state) (userId : Z) (memoryType : MemoryType.t)
           (key value : string) (projectId : option Z) : state :=
  let r := store SineImpl.sin clock (fst s) userId memoryType key value
             projectId (snd s) in
  (snd (fst r), snd r).

Definition retrieved (s : state) (query : MemoryQuery.t)
  : MemoryRetrievalResult.t :=
  fst (fst (retrieve SineImpl.sin clock (fst s) query (snd s))).

Definition after_retrieve (s : state) (query : MemoryQuery.t) : state :=
  let r := retrieve SineImpl.sin clock (fst s) query (snd s) in
  (snd (fst r), snd r).

(** [store(1, "lesson", "k", "v")] on a new store, *)
Definition one_entry : state :=
  after_store (create, 0%nat) 1 MemoryType.lesson "k" "v" None.

(** then [store(1, "lesson", "k2", "v", 7)]. *)
Definition two_entries : state :=
  after_store one_entry 1 MemoryType.lesson "k2" "v" (Some 7%Z).


(** [{ userId: 1 }] *)
Definition plain_query : MemoryQuery.t :=
  MemoryQuery.mk 1 None None None None.

(** [{ userId: 1, query: "v" }] *)
Definition text_query : MemoryQuery.t :=
  MemoryQuery.mk 1 None None (Some "v") None.

(** [{ userId: 1, query: "v", limit: 1 }] *)
Definition text_query_limit_1 : MemoryQuery.t :=
  MemoryQuery.mk 1 None None (Some "v") (Some 1%Z).

(** [{ userId: 1, projectId: 0 }] *)
Definition project_zero_query : MemoryQuery.t :=
  MemoryQuery.mk 1 (Some 0%Z) None None None.

(** [{ userId: 1, projectId: 7, memoryType: "lesson" }] *)
Definition project_type_query : MemoryQuery.t :=
  MemoryQuery.mk 1 (Some 7%Z) (Some MemoryType.lesson) None None.

(** [{ userId: 1, limit: 0 }] *)
Definition limit_zero_query : MemoryQuery.t :=
  MemoryQuery.mk 1 None None None (Some 0%Z).

Definition ids (l : list MemoryEntry.t) : list string := map MemoryEntry.id l.

(** The score that the text query gives to an entry whose value is the
    query text: the nearest number above 1. *)
Definition self_score : float := 0x1.0000000000001p+0%float.

End Scenario.

Unset Implicit Arguments.

(** * Properties *)

(** ** The orchestration pipeline *)

Module OrchestratorFacts.

Import AgentOrchestrator.

(** The responses of the built-in agents on the prompt of the end-to-end
    scenario. *)
Example pascal_todo : CoderAgent.toPascalCase "build a todo list" = "BuildATodoList".
Proof. reflexivity. Qed.

Example todo_code_issues :
  VerifierAgent.checkCodeQuality (CoderAgent.code_for "build a todo list")
  = [VerifierAgent.no_error_handling].
Proof. vm_compute. reflexivity. Qed.

Example todo_code_any_pieces :
  List.length (JS.split (CoderAgent.code_for "build a todo list") "any") = 3%nat.
Proof. vm_compute. reflexivity. Qed.

(** C1. [orchestrate("build a todo list", 42)] on a new orchestrator, at
    any clock: the planner and the coder complete, the verifier finds no
    error handling in the coder's text and fails, and the run returns these
    three records; there is no executor record. *)
Theorem orchestrate_todo_list_stops_at_verifier :
  forall (now : nat -> Z) (n : nat),
    let tasks := trace now create "build a todo list" 42 n in
    map kind_and_status tasks
    = [(AgentType.planner, TaskStatus.completed);
       (AgentType.coder, TaskStatus.completed);
       (AgentType.verifier, TaskStatus.failed)]
    /\ map AgentTask.error tasks
       = [None; None;
          Some ("Code verification found 1 issues:" ++ JS.lf
                ++ "No error handling detected")].
Proof.
  intros now n. split; vm_compute; reflexivity.
Qed.

(** The run of the implementation guide's test,
    [orchestrate("Create a React app", 1)], for which the guide expects
    four tasks, also ends at the verifier. *)
Lemma guide_test_run :
  forall (now : nat -> Z) (n : nat),
    map kind_and_status (trace now create "Create a React app" 1 n)
    = [(AgentType.planner, TaskStatus.completed);
       (AgentType.coder, TaskStatus.completed);
       (AgentType.verifier, TaskStatus.failed)].
Proof.
  intros now n. vm_compute. reflexivity.
Qed.

(** A prompt that mentions [try] passes the verifier, and the run has its
    four records. *)
Lemma try_prompt_run :
  forall (now : nat -> Z) (n : nat),
    map kind_and_status (trace now create "try a todo list" 42 n)
    = [(AgentType.planner, TaskStatus.completed);
       (AgentType.coder, TaskStatus.completed);
       (AgentType.verifier, TaskStatus.completed);
       (AgentType.executor, TaskStatus.completed)].
Proof.
  intros now n. vm_compute. reflexivity.
Qed.

(** C9. For every orchestrator, prompt, project and clock, the agent types
    of the returned records are the leading part of planner, coder,
    verifier, executor, and their number is 1 when the planner's response
    is a failure, 2 when the coder's is, 3 when the verifier's is (so no
    executor record), and 4 otherwise; each record carries the status of
    its stage's response. *)
Theorem orchestrate_fixed_order :
  forall (now : nat -> Z) (this : t) (prompt : string) (projectId : Z) (n : nat),
    let tasks := trace now this prompt projectId n in
    let stages :=
      if negb (AgentResponse.success (planResult this prompt)) then 1
      else if negb (AgentResponse.success (codeResult this prompt)) then 2
      else if negb (AgentResponse.success (verifyResult this prompt)) then 3
      else 4 in
    List.length tasks = stages
    /\ map AgentTask.agentType tasks = firstn stages fixed_order
    /\ map AgentTask.status tasks
       = firstn stages
           (map status_of
              [planResult this prompt; codeResult this prompt;
               verifyResult this prompt; execResult this prompt projectId]).
Proof.
  intros now this prompt projectId n.
  unfold trace, orchestrate, execResult, verifyResult, codeResult, planResult,
    start, bind, ret, Date_now.
  cbn.
  destruct (AgentResponse.success (planner this prompt)); cbn;
    [|repeat split; reflexivity].
  destruct (AgentResponse.success
              (coder this prompt (AgentResponse.result (planner this prompt))));
    cbn; [|repeat split; reflexivity].
  destruct (AgentResponse.success
              (verifier this
                 (JS.or_empty
                    (AgentResponse.result
                       (coder this prompt
                          (AgentResponse.result (planner this prompt)))))));
    cbn; repeat split; reflexivity.
Qed.

End OrchestratorFacts.

(** ** The verifier's checks *)

Module VerifierFacts.

Import VerifierAgent.

Lemma prefix_cons (a b : ascii) (s1 s2 : string) :
  String.prefix (String a s1) (String b s2)
  = if ascii_dec a b then String.prefix s1 s2 else false.
Proof. reflexivity. Qed.

(** Splitting on [any] yields one piece more than [any] has occurrences:
    two occurrences of [any] cannot overlap, so the scan from the left
    meets them all. The statement covers the scan in its three states:
    no, one or two characters of a separator left to drop. *)
Lemma split_any_pieces (s : string) :
  (forall cur, List.length (JS.split_from "any" s 0 cur)
               = S (JS.occurrences "any" s))
  /\ (forall cur, List.length (JS.split_from "any" s 1 cur)
                  = S (JS.occurrences "any" (JS.slice1 s)))
  /\ (forall cur, List.length (JS.split_from "any" s 2 cur)
                  = S (JS.occurrences "any" (JS.slice1 (JS.slice1 s)))).
Proof.
  induction s as [|c s' (IH0 & IH1 & IH2)].
  - repeat split; intros; reflexivity.
  - split; [|split]; intro cur.
    + cbn [JS.split_from].
      destruct (String.prefix "any" (String c s')) eqn:Hp.
      * cbn [List.length String.length Nat.sub]. rewrite IH2.
        cbn [JS.occurrences]. rewrite Hp.
        rewrite prefix_cons in Hp.
        destruct (ascii_dec "a"%char c) as [_|_]; [|discriminate Hp].
        destruct s' as [|c1 s1]; [discriminate Hp|].
        rewrite prefix_cons in Hp.
        destruct (ascii_dec "n"%char c1) as [<-|_]; [|discriminate Hp].
        destruct s1 as [|c2 s2]; [discriminate Hp|].
        rewrite prefix_cons in Hp.
        destruct (ascii_dec "y"%char c2) as [<-|_]; [|discriminate Hp].
        reflexivity.
      * rewrite IH0. cbn [JS.occurrences]. rewrite Hp. reflexivity.
    + cbn [JS.split_from JS.slice1]. apply IH0.
    + cbn [JS.split_from JS.slice1]. apply IH1.
Qed.

Lemma split_any_length (code : string) :
  List.length (JS.split code "any") = S (JS.occurrences "any" code).
Proof.
  unfold JS.split. cbn. apply (split_any_pieces code).
Qed.

Lemma occurrences_includes (sub s : string) :
  (0 < JS.occurrences sub s)%nat -> JS.includes s sub = true.
Proof.
  induction s as [|c s' IH]; cbn [JS.occurrences JS.includes].
  - destruct (String.prefix sub ""); [reflexivity | cbn; lia].
  - destruct (String.prefix sub (String c s')); [reflexivity | exact IH].
Qed.

(** What the check does: the issue is in the list exactly when [any]
    appears three times or more. *)
Lemma excessive_any_reported (code : string) :
  In excessive_any (checkCodeQuality code)
  <-> (3 <= JS.occurrences "any" code)%nat.
Proof.
  unfold checkCodeQuality. rewrite split_any_length.
  destruct (Nat.ltb_spec 3 (S (JS.occurrences "any" code))) as [Hlt|Hge].
  - rewrite (occurrences_includes "any" code) by lia. cbn [andb].
    split; [lia|]. intros _.
    apply in_or_app. right. apply in_or_app. left. left. reflexivity.
  - rewrite andb_false_r.
    split; [|lia]. intro Hin.
    apply in_app_or in Hin. destruct Hin as [Hin|Hin].
    + destruct (negb _); cbn in Hin; intuition discriminate.
    + cbn in Hin. destruct (negb _ && negb _); cbn in Hin; intuition discriminate.
Qed.

(** C6. A text in which [any] appears exactly three times, with an export
    and a [try]: the verifier reports the excessive use of [any], and only
    that. *)
Theorem three_anys_reported :
  JS.occurrences "any" Scenario.three_anys = 3%nat
  /\ checkCodeQuality Scenario.three_anys = [excessive_any]
  /\ AgentResponse.success (verify Scenario.three_anys) = false
  /\ AgentResponse.error (verify Scenario.three_anys)
     = Some ("Code verification found 1 issues:" ++ JS.lf ++ excessive_any).
Proof.
  repeat split; vm_compute; reflexivity.
Qed.

End VerifierFacts.

(** ** Maps *)

Module JSMapFacts.

Import JSMap.

Section Values.

Variable V : Type.

Implicit Types (m : JSMap.t V) (k : string) (v : V).

Lemma get_Some_In m k v : get m k = Some v -> In (k, v) m.
Proof.
  induction m as [|[k' v'] rest IH]; cbn; [discriminate|].
  destruct (String.eqb_spec k' k) as [->|Hne].
  - intros [= ->]. left. reflexivity.
  - intro H. right. exact (IH H).
Qed.

Lemma get_None_keys m k : get m k = None -> ~ In k (keys m).
Proof.
  induction m as [|[k' v'] rest IH]; cbn; [tauto|].
  destruct (String.eqb_spec k' k) as [->|Hne]; [discriminate|].
  intros H [Heq|Hin]; [contradiction | exact (IH H Hin)].
Qed.

Lemma In_get m k v : wf m -> In (k, v) m -> get m k = Some v.
Proof.
  unfold wf.
  induction m as [|[k' v'] rest IH]; cbn; [tauto|].
  intros Hnd [Heq|Hin].
  - injection Heq as -> ->. rewrite String.eqb_refl. reflexivity.
  - inversion Hnd as [|? ? Hnotin Hrest]; subst.
    destruct (String.eqb_spec k' k) as [->|Hne].
    + exfalso. apply Hnotin. change k with (fst (k, v)).
      apply in_map. exact Hin.
    + exact (IH Hrest Hin).
Qed.

Lemma keys_modify (f : V -> V) m k : keys (modify f m k) = keys m.
Proof.
  induction m as [|[k' v'] rest IH]; cbn; [reflexivity|].
  destruct (k' =? k)%string; cbn; [reflexivity|].
  f_equal. exact IH.
Qed.

Lemma get_modify_same (f : V -> V) m k :
  get (modify f m k) k = option_map f (get m k).
Proof.
  induction m as [|[k' v'] rest IH]; cbn; [reflexivity|].
  destruct (String.eqb_spec k' k) as [->|Hne]; cbn.
  - rewrite String.eqb_refl. reflexivity.
  - destruct (String.eqb_spec k' k); [contradiction | exact IH].
Qed.

Lemma get_modify_other (f : V -> V) m k k' :
  k' <> k -> get (modify f m k) k' = get m k'.
Proof.
  intro Hne.
  induction m as [|[k0 v0] rest IH]; cbn; [reflexivity|].
  destruct (String.eqb_spec k0 k) as [->|Hne0]; cbn.
  - destruct (String.eqb_spec k k'); [congruence | reflexivity].
  - destruct (k0 =? k')%string; [reflexivity | exact IH].
Qed.

Lemma keys_set_In m k v k' : In k' (keys (set m k v)) -> k' = k \/ In k' (keys m).
Proof.
  induction m as [|[k0 v0] rest IH]; cbn.
  - intros [H|[]]. left. congruence.
  - destruct (String.eqb_spec k0 k) as [->|Hne]; cbn.
    + tauto.
    + intros [H|H]; [tauto|]. destruct (IH H); tauto.
Qed.

Lemma wf_set m k v : wf m -> wf (set m k v).
Proof.
  unfold wf.
  induction m as [|[k0 v0] rest IH]; cbn; intro Hnd.
  - constructor; [tauto | constructor].
  - inversion Hnd as [|? ? Hnotin Hrest]; subst.
    destruct (String.eqb_spec k0 k) as [->|Hne]; cbn.
    + constructor; assumption.
    + constructor; [|exact (IH Hrest)].
      intro Hin. apply keys_set_In in Hin. destruct Hin; [congruence | tauto].
Qed.

Lemma get_set_same m k v : get (set m k v) k = Some v.
Proof.
  induction m as [|[k0 v0] rest IH]; cbn.
  - rewrite String.eqb_refl. reflexivity.
  - destruct (String.eqb_spec k0 k) as [->|Hne]; cbn.
    + rewrite String.eqb_refl. reflexivity.
    + destruct (String.eqb_spec k0 k); [contradiction | exact IH].
Qed.

Lemma get_set_other m k v k' : k' <> k -> get (set m k v) k' = get m k'.
Proof.
  intro Hne.
  induction m as [|[k0 v0] rest IH]; cbn.
  - destruct (String.eqb_spec k k'); [congruence | reflexivity].
  - destruct (String.eqb_spec k0 k) as [->|Hne0]; cbn.
    + destruct (String.eqb_spec k k'); [congruence | reflexivity].
    + destruct (k0 =? k')%string; [reflexivity | exact IH].
Qed.

Lemma keys_remove_In m k k' : In k' (keys (remove m k)) -> In k' (keys m).
Proof.
  induction m as [|[k0 v0] rest IH]; cbn; [tauto|].
  destruct (k0 =? k)%string; cbn; [tauto|].
  intros [H|H]; [tauto | right; exact (IH H)].
Qed.

Lemma wf_remove m k : wf m -> wf (remove m k).
Proof.
  unfold wf.
  induction m as [|[k0 v0] rest IH]; cbn; intro Hnd; [constructor|].
  inversion Hnd as [|? ? Hnotin Hrest]; subst.
  destruct (k0 =? k)%string; cbn; [assumption|].
  constructor; [|exact (IH Hrest)].
  intro Hin. apply Hnotin. exact (keys_remove_In _ _ _ Hin).
Qed.

Lemma get_remove_same m k : wf m -> get (remove m k) k = None.
Proof.
  unfold wf.
  induction m as [|[k0 v0] rest IH]; cbn; intro Hnd; [reflexivity|].
  inversion Hnd as [|? ? Hnotin Hrest]; subst.
  destruct (String.eqb_spec k0 k) as [->|Hne]; cbn.
  - destruct (get rest k) eqn:Hget; [|reflexivity].
    exfalso. apply Hnotin. apply get_Some_In in Hget.
    change k with (fst (k, v)). apply in_map. exact Hget.
  - destruct (String.eqb_spec k0 k); [contradiction | exact (IH Hrest)].
Qed.

End Values.

End JSMapFacts.

(** ** The memory store *)

Module MemoryFacts.

Import MemoryStorage.

Lemma slice0_firstn {A : Type} (l : list A) (stop : Z) :
  exists n, JS.slice0 l stop = firstn n l.
Proof. unfold JS.slice0. eexists. reflexivity. Qed.

Lemma firstn_In {A : Type} (n : nat) (l : list A) (x : A) :
  In x (firstn n l) -> In x l.
Proof.
  intro H. rewrite <- (firstn_skipn n l). apply in_or_app. left. exact H.
Qed.

Lemma firstn_NoDup {A : Type} (n : nat) (l : list A) :
  NoDup l -> NoDup (firstn n l).
Proof.
  intro H. rewrite <- (firstn_skipn n l) in H.
  exact (NoDup_app_remove_r _ _ H).
Qed.

Lemma Forall2_In_r {A B : Type} (R : A -> B -> Prop) (la : list A) (lb : list B) :
  Forall2 R la lb -> forall b, In b lb -> exists a, In a la /\ R a b.
Proof.
  induction 1 as [|a b la lb HR _ IH]; cbn; [tauto|].
  intros b' [<-|Hin].
  - exists a. tauto.
  - destruct (IH b' Hin) as (a' & Ha & HR'). exists a'. tauto.
Qed.

Section Run.

Variable Math_sin : float -> float.
Variable now : nat -> Z.

Abbreviation visit := (visit Math_sin).
Abbreviation scan := (scan Math_sin).
Abbreviation scanned := (scanned Math_sin).
Abbreviation candidates := (candidates Math_sin).
Abbreviation sorted_results := (sorted_results Math_sin).
Abbreviation limited := (limited Math_sin).
Abbreviation touch_all := (touch_all now).
Abbreviation retrieve := (retrieve Math_sin now).
Abbreviation touched := (touched Math_sin now).

Implicit Types (this : MemoryStorage.t) (query : MemoryQuery.t)
         (m : JSMap.t MemoryEntry.t) (entry : MemoryEntry.t).

(** The first loop leaves every field of an entry but [relevanceScore]
    as it was. *)
Lemma visit_only_score query entry :
  MemoryEntry.set_relevanceScore (MemoryEntry.relevanceScore entry)
    (fst (visit query entry)) = entry.
Proof.
  destruct entry. unfold MemoryStorage.visit. cbn.
  repeat match goal with
         | |- context [if ?b then _ else _] => destruct b; cbn
         | |- context [match ?x with Some _ => _ | None => _ end] =>
             destruct x; cbn
         end; reflexivity.
Qed.

Lemma visit_pushed_user query entry :
  snd (visit query entry) = true ->
  MemoryEntry.userId entry = MemoryQuery.userId query.
Proof.
  unfold MemoryStorage.visit.
  destruct (Z.eqb_spec (MemoryEntry.userId entry) (MemoryQuery.userId query));
    cbn; [tauto | discriminate].
Qed.

(** Without a truthy [query], the first loop writes nothing. *)
Lemma visit_no_text query entry :
  JS.when_truthy (MemoryQuery.query query) = None ->
  fst (visit query entry) = entry.
Proof.
  intro Hq. unfold MemoryStorage.visit. rewrite Hq.
  repeat match goal with
         | |- context [if ?b then _ else _] => destruct b; cbn
         end; reflexivity.
Qed.

Lemma scan_keys query m : JSMap.keys (fst (scan query m)) = JSMap.keys m.
Proof.
  induction m as [|[k e] rest IH]; cbn; [reflexivity|].
  destruct (visit query e) as [e' pushed].
  destruct (scan query rest) as [rest' results]. cbn in *.
  f_equal. exact IH.
Qed.

Lemma get_scan query m k :
  JSMap.get (fst (scan query m)) k
  = option_map (fun e => fst (visit query e)) (JSMap.get m k).
Proof.
  induction m as [|[k' e] rest IH]; cbn; [reflexivity|].
  destruct (visit query e) as [e' pushed] eqn:Hv.
  destruct (scan query rest) as [rest' results]. cbn in *.
  destruct (k' =? k)%string; [cbn; rewrite Hv; reflexivity | exact IH].
Qed.

Lemma scan_results_In query m k :
  In k (snd (scan query m)) ->
  exists e, In (k, e) m /\ snd (visit query e) = true.
Proof.
  induction m as [|[k' e] rest IH]; cbn; [tauto|].
  destruct (visit query e) as [e' pushed] eqn:Hv.
  destruct (scan query rest) as [rest' results]. cbn in *.
  destruct pushed; cbn.
  - intros [<-|Hin].
    + exists e. rewrite Hv. tauto.
    + destruct (IH Hin) as (e0 & Hin0 & Hp). exists e0. tauto.
  - intro Hin. destruct (IH Hin) as (e0 & Hin0 & Hp). exists e0. tauto.
Qed.

Lemma scan_results_keys query m k :
  In k (snd (scan query m)) -> In k (JSMap.keys m).
Proof.
  intro H. destruct (scan_results_In _ _ _ H) as (e & Hin & _).
  change k with (fst (k, e)). apply in_map. exact Hin.
Qed.

Lemma scan_results_NoDup query m :
  JSMap.wf m -> NoDup (snd (scan query m)).
Proof.
  unfold JSMap.wf.
  induction m as [|[k e] rest IH]; cbn; intro Hnd; [constructor|].
  inversion Hnd as [|? ? Hnotin Hrest]; subst.
  specialize (IH Hrest).
  pose proof (scan_results_keys query rest k) as Hkeys.
  destruct (visit query e) as [e' pushed].
  destruct (scan query rest) as [rest' results]. cbn in *.
  destruct pushed; [constructor; tauto | exact IH].
Qed.

Lemma insert_perm m x l : Permutation (insert m x l) (x :: l).
Proof.
  induction l as [|y rest IH]; cbn; [reflexivity|].
  destruct (0 <? compareRefs m x y)%Z; [|reflexivity].
  rewrite IH. apply perm_swap.
Qed.

Lemma sort_perm m l : Permutation (sort m l) l.
Proof.
  induction l as [|x rest IH]; cbn; [reflexivity|].
  rewrite insert_perm. constructor. exact IH.
Qed.

Lemma touch_all_clock m ks n : snd (touch_all m ks n) = (n + List.length ks)%nat.
Proof.
  revert m n. induction ks as [|k rest IH]; intros m n; cbn.
  - lia.
  - unfold bind, Date_now. cbn. rewrite IH. lia.
Qed.

Lemma touch_all_keys m ks n :
  JSMap.keys (fst (touch_all m ks n)) = JSMap.keys m.
Proof.
  revert m n. induction ks as [|k rest IH]; intros m n; cbn; [reflexivity|].
  unfold bind, Date_now. cbn. rewrite IH. apply JSMapFacts.keys_modify.
Qed.

Lemma touch_all_other m ks n k :
  ~ In k ks -> JSMap.get (fst (touch_all m ks n)) k = JSMap.get m k.
Proof.
  revert m n. induction ks as [|k0 rest IH]; intros m n Hnotin; cbn;
    [reflexivity|].
  unfold bind, Date_now. cbn. rewrite IH by (cbn in Hnotin; tauto).
  apply JSMapFacts.get_modify_other. cbn in Hnotin. intuition congruence.
Qed.

Lemma touch_all_nth m ks n i k :
  NoDup ks -> nth_error ks i = Some k ->
  JSMap.get (fst (touch_all m ks n)) k
  = option_map (MemoryEntry.touch (now (n + i))) (JSMap.get m k).
Proof.
  revert m n i. induction ks as [|k0 rest IH]; intros m n i Hnd Hnth.
  - destruct i; discriminate.
  - inversion Hnd as [|? ? Hnotin Hrest]; subst.
    cbn. unfold bind, Date_now. cbn.
    destruct i as [|i]; cbn in Hnth.
    + injection Hnth as ->.
      rewrite touch_all_other by exact Hnotin.
      rewrite JSMapFacts.get_modify_same. rewrite Nat.add_0_r. reflexivity.
    + rewrite (IH _ _ i Hrest Hnth).
      rewrite JSMapFacts.get_modify_other.
      * replace (S n + i)%nat with (n + S i)%nat by lia. reflexivity.
      * intros ->. apply Hnotin. exact (nth_error_In _ _ Hnth).
Qed.

Lemma deref_all_present m ks :
  (forall k, In k ks -> JSMap.get m k <> None) ->
  Forall2 (fun k e => JSMap.get m k = Some e) ks (deref_all m ks).
Proof.
  induction ks as [|k rest IH]; cbn; intro H; [constructor|].
  destruct (JSMap.get m k) as [e|] eqn:Hget.
  - constructor; [exact Hget | apply IH; auto].
  - exfalso. exact (H k (or_introl eq_refl) Hget).
Qed.

Lemma deref_all_length m ks : (List.length (deref_all m ks) <= List.length ks)%nat.
Proof.
  induction ks as [|k rest IH]; cbn; [lia|].
  destruct (JSMap.get m k); cbn; lia.
Qed.

(** [retrieve] in one equation: what it returns, the store it leaves and
    the number of clock readings. *)
Lemma retrieve_eq this query n :
  retrieve this query n
  = (MemoryRetrievalResult.mk
       (deref_all (touched this query n) (limited this query))
       (List.length (sorted_results this query))
       (now (S n + List.length (limited this query)) - now n),
     MemoryStorage.mk (touched this query n) (nextId this),
     S (S n + List.length (limited this query))).
Proof.
  unfold MemoryStorage.retrieve, MemoryStorage.touched, MemoryStorage.limited,
    MemoryStorage.sorted_results, MemoryStorage.scanned,
    MemoryStorage.candidates, bind, ret, Date_now.
  destruct (MemoryStorage.scan Math_sin query (memories this)) as [sc res].
  cbn [fst snd].
  pose proof (touch_all_clock sc
                (JS.slice0 (sort sc res) (effective_limit query)) (S n)) as Hclock.
  destruct (MemoryStorage.touch_all now sc
              (JS.slice0 (sort sc res) (effective_limit query)) (S n))
    as [m' n'].
  cbn [fst snd] in *. subst n'. reflexivity.
Qed.

Lemma limited_In_candidates this query k :
  In k (limited this query) -> In k (candidates this query).
Proof.
  unfold MemoryStorage.limited.
  destruct (slice0_firstn (sorted_results this query) (effective_limit query))
    as [c ->].
  intro H. apply firstn_In in H.
  exact (Permutation_in _ (sort_perm _ _) H).
Qed.

Lemma limited_NoDup this query : wf this -> NoDup (limited this query).
Proof.
  intro Hwf. unfold MemoryStorage.limited.
  destruct (slice0_firstn (sorted_results this query) (effective_limit query))
    as [c ->].
  apply firstn_NoDup.
  apply (Permutation_NoDup (Permutation_sym (sort_perm _ _))).
  apply scan_results_NoDup. exact Hwf.
Qed.

(** A candidate is an entry of the store that the first loop pushed. *)
Lemma candidate_entry this query k :
  wf this -> In k (candidates this query) ->
  exists e, JSMap.get (memories this) k = Some e
            /\ snd (visit query e) = true.
Proof.
  intros Hwf Hin.
  destruct (scan_results_In _ _ _ Hin) as (e & Hmem & Hpushed).
  exists e. split; [|exact Hpushed].
  apply JSMapFacts.In_get; assumption.
Qed.

(** The i-th returned reference denotes a pushed entry of the store,
    rescored by the first loop and touched at the i-th reading that
    follows the one of [startTime]. *)
Lemma returned_entry this query n i k :
  wf this -> nth_error (limited this query) i = Some k ->
  exists e, JSMap.get (memories this) k = Some e
            /\ snd (visit query e) = true
            /\ JSMap.get (touched this query n) k
               = Some (MemoryEntry.touch (now (S n + i)) (rescored Math_sin query e)).
Proof.
  intros Hwf Hnth.
  pose proof (nth_error_In _ _ Hnth) as Hin.
  apply limited_In_candidates in Hin.
  destruct (candidate_entry _ _ _ Hwf Hin) as (e & Hget & Hpushed).
  exists e. repeat split; try assumption.
  unfold MemoryStorage.touched.
  rewrite (touch_all_nth _ _ _ _ _ (limited_NoDup _ query Hwf) Hnth).
  unfold MemoryStorage.scanned. rewrite get_scan, Hget. reflexivity.
Qed.


Lemma returned_entries this query n :
  wf this ->
  Forall2 (fun k e' => JSMap.get (touched this query n) k = Some e')
    (limited this query)
    (deref_all (touched this query n) (limited this query)).
Proof.
  intro Hwf. apply deref_all_present. intros k Hin.
  destruct (In_nth_error _ _ Hin) as [i Hnth].
  destruct (returned_entry _ _ n _ _ Hwf Hnth) as (e & _ & _ & ->). discriminate.
Qed.

(** Every returned entry is a pushed entry, rescored and touched. *)
Lemma returned_entry_origin this query n e' :
  wf this ->
  In e' (MemoryRetrievalResult.entries (fst (fst (retrieve this query n)))) ->
  exists e time,
    In e (map snd (memories this))
    /\ snd (visit query e) = true
    /\ e' = MemoryEntry.touch time (rescored Math_sin query e).
Proof.
  intros Hwf Hin. rewrite retrieve_eq in Hin. cbn in Hin.
  destruct (Forall2_In_r _ _ _ (returned_entries _ query n Hwf) _ Hin) as (k & Hk & Hget).
  destruct (In_nth_error _ _ Hk) as [i Hnth].
  destruct (returned_entry _ _ n _ _ Hwf Hnth) as (e & Hold & Hpushed & Hnew).
  exists e, (now (S n + i)). repeat split; try assumption.
  - apply JSMapFacts.get_Some_In in Hold.
    change e with (snd (k, e)). apply in_map. exact Hold.
  - congruence.
Qed.

(** The operations keep the keys of the map distinct. *)
Lemma retrieve_wf this query n :
  wf this -> wf (snd (fst (retrieve this query n))).
Proof.
  intro Hwf. rewrite retrieve_eq. cbn [fst snd].
  unfold wf, JSMap.wf. cbn [memories]. unfold MemoryStorage.touched.
  rewrite touch_all_keys. unfold MemoryStorage.scanned.
  rewrite scan_keys. exact Hwf.
Qed.

Lemma store_wf this userId memoryType key value projectId n :
  wf this ->
  wf (snd (fst (store Math_sin now this userId memoryType key value projectId n))).
Proof.
  intro Hwf. cbn. apply JSMapFacts.wf_set. exact Hwf.
Qed.

Lemma update_wf this id userId updates n entry this' :
  wf this ->
  fst (update Math_sin now this id userId updates n) = Returned (entry, this') ->
  wf this'.
Proof.
  intro Hwf. unfold update.
  destruct (owned (memories this) id userId); cbn; [|discriminate].
  intros [= _ <-]. apply JSMapFacts.wf_set. exact Hwf.
Qed.

Lemma delete_wf this id userId removed this' :
  wf this -> delete this id userId = Returned (removed, this') -> wf this'.
Proof.
  intro Hwf. unfold delete.
  destruct (owned (memories this) id userId); cbn; [|discriminate].
  intros [= _ <-]. apply JSMapFacts.wf_remove. exact Hwf.
Qed.

End Run.

Lemma create_wf : wf create.
Proof. constructor. Qed.

Lemma one_entry_wf : wf (fst Scenario.one_entry).
Proof. apply store_wf. exact create_wf. Qed.

Lemma two_entries_wf : wf (fst Scenario.two_entries).
Proof. apply store_wf. exact one_entry_wf. Qed.

End MemoryFacts.

(** ** Retrieval *)

Module RetrieveFacts.

Import MemoryStorage MemoryFacts.

Section Run.

Variable Math_sin : float -> float.
Variable now : nat -> Z.

Abbreviation visit := (visit Math_sin).
Abbreviation limited := (limited Math_sin).
Abbreviation retrieve := (retrieve Math_sin now).
Abbreviation rescored := (rescored Math_sin).

Implicit Types (this : MemoryStorage.t) (query : MemoryQuery.t).

(** C3. Every entry that [retrieve] returns belongs to the user of the
    query. *)
Theorem retrieve_scoped_to_user this query n :
  wf this ->
  Forall (fun e => MemoryEntry.userId e = MemoryQuery.userId query)
         (MemoryRetrievalResult.entries (fst (fst (retrieve this query n)))).
Proof.
  intro Hwf. apply Forall_forall. intros e' Hin.
  destruct (returned_entry_origin _ _ _ _ _ _ Hwf Hin)
    as (e & time & _ & Hpushed & ->).
  apply visit_pushed_user in Hpushed. rewrite <- Hpushed.
  unfold MemoryStorage.rescored.
  rewrite <- (visit_only_score Math_sin query e) at 2. reflexivity.
Qed.

Lemma visit_pushed_project query entry :
  JS.truthy_Z (MemoryQuery.projectId query) = true ->
  snd (visit query entry) = true ->
  MemoryEntry.projectId entry = MemoryQuery.projectId query.
Proof.
  intros Htruthy. unfold MemoryStorage.visit. rewrite Htruthy.
  destruct (negb (MemoryEntry.userId entry =? MemoryQuery.userId query)%Z);
    cbn [snd andb]; [discriminate|].
  destruct (MemoryEntry.projectId entry) as [x|],
           (MemoryQuery.projectId query) as [y|];
    cbn; try discriminate.
  destruct (Z.eqb_spec x y) as [->|_]; cbn; [reflexivity | discriminate].
Qed.

(** With a [projectId] other than 0 in the query, every returned entry
    has that [projectId]. *)
Lemma retrieve_scoped_to_project this query n :
  wf this ->
  JS.truthy_Z (MemoryQuery.projectId query) = true ->
  Forall (fun e => MemoryEntry.projectId e = MemoryQuery.projectId query)
         (MemoryRetrievalResult.entries (fst (fst (retrieve this query n)))).
Proof.
  intros Hwf Htruthy. apply Forall_forall. intros e' Hin.
  destruct (returned_entry_origin _ _ _ _ _ _ Hwf Hin)
    as (e & time & _ & Hpushed & ->).
  apply (visit_pushed_project _ _ Htruthy) in Hpushed. rewrite <- Hpushed.
  unfold MemoryStorage.rescored.
  rewrite <- (visit_only_score Math_sin query e) at 2. reflexivity.
Qed.

(** [totalResults] counts the candidates, and the number of returned
    entries is bounded by a positive [limit], or by 10 without one. *)
Lemma retrieve_limit this query n :
  let result := fst (fst (retrieve this query n)) in
  let returned := List.length (MemoryRetrievalResult.entries result) in
  MemoryRetrievalResult.totalResults result
  = List.length (candidates Math_sin this query)
  /\ (returned <= MemoryRetrievalResult.totalResults result)%nat
  /\ (MemoryQuery.limit query = None -> (returned <= 10)%nat)
  /\ (forall l, MemoryQuery.limit query = Some l -> (0 < l)%Z ->
                (Z.of_nat returned <= l)%Z).
Proof.
  cbn zeta. rewrite retrieve_eq. cbn [fst snd MemoryRetrievalResult.entries
                                      MemoryRetrievalResult.totalResults].
  pose proof (deref_all_length (touched Math_sin now this query n)
                (limited this query)) as Hderef.
  pose proof (Permutation_length
                (sort_perm (scanned Math_sin this query)
                   (candidates Math_sin this query))) as Hperm.
  fold (sorted_results Math_sin this query) in Hperm.
  assert (Hslice : forall stop,
             (0 <= stop)%Z ->
             (Z.of_nat (List.length (JS.slice0 (sorted_results Math_sin this query) stop))
              <= stop)%Z
             /\ (List.length (JS.slice0 (sorted_results Math_sin this query) stop)
                 <= List.length (sorted_results Math_sin this query))%nat).
  { intros stop Hstop. unfold JS.slice0.
    destruct (Z.ltb_spec stop 0); [lia|].
    rewrite length_firstn. lia. }
  assert (Hany : (List.length (limited this query)
                  <= List.length (sorted_results Math_sin this query))%nat).
  { unfold MemoryStorage.limited, JS.slice0. rewrite length_firstn. lia. }
  repeat split.
  - exact Hperm.
  - lia.
  - intro Hnone. unfold MemoryStorage.limited, effective_limit in *.
    rewrite Hnone in *. cbn in *.
    destruct (Hslice 10%Z ltac:(lia)). lia.
  - intros l Hsome Hpos. unfold MemoryStorage.limited, effective_limit in *.
    rewrite Hsome in *. cbn [JS.truthy_Z] in *.
    destruct (Z.eqb_spec l 0); [lia|]. cbn [negb] in *.
    destruct (Hslice l ltac:(lia)). lia.
Qed.

(** With query text, an entry that has an embedding is pushed only when
    its similarity to the text is above the floor, and the loop writes that
    similarity into it. *)
Lemma visit_pushed_text query entry text embedding :
  JS.when_truthy (MemoryQuery.query query) = Some text ->
  MemoryEntry.embedding entry = Some embedding ->
  snd (visit query entry) = true ->
  let similarity :=
    VectorEmbeddingService.calculateSimilarity embedding
      (generateEmbedding Math_sin text) in
  PrimFloat.ltb relevance_floor similarity = true
  /\ MemoryEntry.relevanceScore (rescored query entry) = Some similarity.
Proof.
  intros Htext Hemb. unfold MemoryStorage.rescored, MemoryStorage.visit.
  rewrite Htext, Hemb.
  repeat match goal with
         | |- context [if ?b then _ else _] =>
             lazymatch b with
             | PrimFloat.ltb _ _ => fail
             | _ => destruct b; cbn [fst snd]
             end
         end; try discriminate.
  all: destruct (PrimFloat.ltb relevance_floor _) eqn:Hfloor; cbn;
    [intros _; split; reflexivity | discriminate].
Qed.

(** Without query text, a returned entry has the [relevanceScore] that
    it had in the store before the call. *)
Lemma plain_retrieve_scores this query n :
  wf this ->
  JS.when_truthy (MemoryQuery.query query) = None ->
  Forall (fun e' => exists e, In e (map snd (memories this))
                              /\ MemoryEntry.relevanceScore e'
                                 = MemoryEntry.relevanceScore e)
         (MemoryRetrievalResult.entries (fst (fst (retrieve this query n)))).
Proof.
  intros Hwf Hplain. apply Forall_forall. intros e' Hin.
  destruct (returned_entry_origin _ _ _ _ _ _ Hwf Hin)
    as (e & time & Hmem & _ & ->).
  exists e. split; [exact Hmem|].
  unfold MemoryStorage.rescored.
  rewrite (visit_no_text Math_sin query e Hplain). reflexivity.
Qed.








End Run.

End RetrieveFacts.

(** ** Runs of the store on concrete inputs *)

Module StoreRuns.

Import MemoryStorage MemoryFacts Scenario.

(** C2. [store(1, "lesson", "k", "v")], then [retrieve] with the text "v",
    then [retrieve] without text: the entry that the last call returns
    still carries the score of the text query, which is not 0. *)
Theorem plain_retrieve_keeps_earlier_score :
  let earlier := retrieved one_entry text_query in
  let later := retrieved (after_retrieve one_entry text_query) plain_query in
  ids (MemoryRetrievalResult.entries earlier) = ["mem-1"]
  /\ ids (MemoryRetrievalResult.entries later) = ["mem-1"]
  /\ map MemoryEntry.relevanceScore (MemoryRetrievalResult.entries later)
     = [Some self_score]
  /\ map (fun e => JS.truthy_number (JS.or_zero (MemoryEntry.relevanceScore e)))
         (MemoryRetrievalResult.entries later)
     = [true].
Proof.
  repeat split; vm_compute; reflexivity.
Qed.

(** C4. A query with [projectId] 0 on a store that holds, for the same
    user, an entry without project and an entry of project 7: both are
    returned. *)
Theorem project_zero_not_filtered :
  let result := retrieved two_entries project_zero_query in
  ids (MemoryRetrievalResult.entries result) = ["mem-1"; "mem-2"]
  /\ map MemoryEntry.projectId (MemoryRetrievalResult.entries result)
     = [None; Some 7%Z].
Proof.
  split; vm_compute; reflexivity.
Qed.

(** C7. A query with [limit] 0 on a store with two entries of the user:
    both are returned. *)
Theorem limit_zero_returns_entries :
  let result := retrieved two_entries limit_zero_query in
  ids (MemoryRetrievalResult.entries result) = ["mem-1"; "mem-2"]
  /\ MemoryRetrievalResult.totalResults result = 2%nat.
Proof.
  split; vm_compute; reflexivity.
Qed.


(** What the call of the lemma above returns and leaves. *)
Lemma limit_1_run :
  ids (MemoryRetrievalResult.entries (retrieved two_entries text_query_limit_1))
  = ["mem-1"]
  /\ map (fun p => (fst p, MemoryEntry.relevanceScore (snd p),
                    MemoryEntry.accessCount (snd p)))
         (memories (fst two_entries))
     = [("mem-1", None, 0%Z); ("mem-2", None, 0%Z)]
  /\ map (fun p => (fst p, MemoryEntry.relevanceScore (snd p),
                    MemoryEntry.accessCount (snd p)))
         (memories (fst (after_retrieve two_entries text_query_limit_1)))
     = [("mem-1", Some self_score, 1%Z); ("mem-2", Some self_score, 0%Z)].
Proof.
  repeat split; vm_compute; reflexivity.
Qed.

(** The scoping theorem on the store with two entries and the text query
    of limit 1. *)
Lemma retrieve_scoped_to_user_witness :
  wf (fst two_entries)
  /\ Forall (fun e => MemoryEntry.userId e = MemoryQuery.userId text_query_limit_1)
       (MemoryRetrievalResult.entries
          (fst (fst (retrieve SineImpl.sin clock (fst two_entries)
                       text_query_limit_1 (snd two_entries))))).
Proof.
  split.
  - exact two_entries_wf.
  - apply (RetrieveFacts.retrieve_scoped_to_user SineImpl.sin clock
             (fst two_entries) text_query_limit_1 (snd two_entries)).
    exact two_entries_wf.
Defined.


End StoreRuns.

(** ** Update and delete *)

Module UpdateFacts.

Import MemoryStorage MemoryFacts.

Section Run.

Variable Math_sin : float -> float.
Variable now : nat -> Z.

Abbreviation store := (store Math_sin now).
Abbreviation update := (update Math_sin now).
Abbreviation generateEmbedding := (generateEmbedding Math_sin).

(** [update] with a value that is not the empty string: the entry that
    it returns and stores has the embedding of the new value. *)
Lemma update_regenerates this id userId updates value n :
  MemoryUpdates.value updates = Some value ->
  value <> "" ->
  match fst (update this id userId updates n) with
  | Returned (entry, this') =>
      MemoryEntry.embedding entry = Some (generateEmbedding value)
      /\ MemoryEntry.value entry = value
      /\ JSMap.get (memories this') id = Some entry
  | Thrown message => message = not_found
  end.
Proof.
  intros Hvalue Hne. unfold MemoryStorage.update.
  destruct (owned (memories this) id userId) as [entry|]; cbn; [|reflexivity].
  unfold JS.when_truthy, JS.truthy_string. rewrite Hvalue.
  destruct (String.eqb_spec value ""); [contradiction|]. cbn.
  split; [reflexivity|]. split.
  - rewrite Hvalue. reflexivity.
  - apply JSMapFacts.get_set_same.
Qed.

(** [update] with the empty string as only field: the value is replaced
    and the embedding is the one the entry had. *)
Lemma update_empty_value this id userId n :
  match fst (update this id userId (MemoryUpdates.only_value "") n),
        JSMap.get (memories this) id with
  | Returned (entry, this'), Some old =>
      MemoryEntry.value entry = ""
      /\ MemoryEntry.embedding entry = MemoryEntry.embedding old
      /\ JSMap.get (memories this') id = Some entry
  | Returned _, None => False
  | Thrown message, _ => message = not_found
  end.
Proof.
  unfold MemoryStorage.update, owned.
  destruct (JSMap.get (memories this) id) as [old|]; cbn; [|reflexivity].
  destruct (MemoryEntry.userId old =? userId)%Z; cbn; [|reflexivity].
  repeat split. apply JSMapFacts.get_set_same.
Qed.

(** C8. [store(1, "lesson", "k", "v")] on a new store, then
    [update("mem-1", 1, { value: "" })], for any sine and any clock:
    the call returns, the stored entry has the empty value and its
    embedding is still the one generated from "v". *)
Theorem empty_value_keeps_embedding :
  let stored := snd (fst (store create 1 MemoryType.lesson "k" "v" None 0)) in
  exists entry this',
    fst (update stored "mem-1" 1 (MemoryUpdates.only_value "") 3)
    = Returned (entry, this')
    /\ JSMap.get (memories this') "mem-1" = Some entry
    /\ MemoryEntry.value entry = ""
    /\ MemoryEntry.embedding entry = Some (generateEmbedding "v").
Proof.
  cbn zeta. eexists. eexists.
  split; [reflexivity|]. repeat split.
Qed.

End Run.

(** With the sine of [SineImpl], the embeddings of "v" and of the empty
    string differ, already in their first component. *)
Lemma embedding_v_not_empty :
  VectorEmbeddingService.generateEmbedding SineImpl.sin "v"
  <> VectorEmbeddingService.generateEmbedding SineImpl.sin "".
Proof.
  intro H.
  assert (Hhd : PrimFloat.eqb
                  (hd 0%float (VectorEmbeddingService.generateEmbedding SineImpl.sin "v"))
                  (hd 0%float (VectorEmbeddingService.generateEmbedding SineImpl.sin ""))
                = true).
  { rewrite H. vm_compute. reflexivity. }
  vm_compute in Hhd. discriminate Hhd.
Qed.

(** C10. [delete] returns [true] or throws: it returns [true] when the
    entry is present and belongs to the user, and throws the not-found
    error when the entry is absent or belongs to another user. *)
Theorem delete_returns_true :
  forall (this : MemoryStorage.t) (id : string) (userId : Z),
    match delete this id userId with
    | Returned (removed, this') =>
        removed = true
        /\ memories this' = JSMap.remove (memories this) id
        /\ exists entry, JSMap.get (memories this) id = Some entry
                         /\ MemoryEntry.userId entry = userId
    | Thrown message =>
        message = not_found
        /\ (JSMap.get (memories this) id = None
            \/ exists entry, JSMap.get (memories this) id = Some entry
                             /\ MemoryEntry.userId entry <> userId)
    end.
Proof.
  intros this id userId. unfold delete, owned, JSMap.delete, JSMap.has.
  destruct (JSMap.get (memories this) id) as [entry|] eqn:Hget.
  - destruct (Z.eqb_spec (MemoryEntry.userId entry) userId) as [Heq|Hne]; cbn.
    + repeat split. exists entry. split; [reflexivity | exact Heq].
    + split; [reflexivity|]. right. exists entry. split; [reflexivity | exact Hne].
  - cbn. split; [reflexivity|]. left. reflexivity.
Qed.

(** After a [delete] that returns, the store has no entry under the id. *)
Lemma delete_removes this id userId removed this' :
  wf this ->
  delete this id userId = Returned (removed, this') ->
  JSMap.get (memories this') id = None.
Proof.
  intros Hwf. unfold delete.
  destruct (owned (memories this) id userId); cbn; [|discriminate].
  intros [= _ <-]. cbn. apply JSMapFacts.get_remove_same. exact Hwf.
Qed.

End UpdateFacts.

(** ** More on the agents *)

Module AgentFacts.

Import VerifierAgent.

Lemma prefix_app (sub a b : string) :
  String.prefix sub a = true -> String.prefix sub (a ++ b) = true.
Proof.
  revert a. induction sub as [|c sub IH]; intros a H;
    [destruct (a ++ b); reflexivity|].
  destruct a as [|c' a]; [discriminate H|].
  cbn [String.append]. rewrite VerifierFacts.prefix_cons in *.
  destruct (ascii_dec c c'); [exact (IH a H) | discriminate H].
Qed.

Lemma includes_app_l (a b sub : string) :
  JS.includes a sub = true -> JS.includes (a ++ b) sub = true.
Proof.
  induction a as [|c a IH]; cbn [JS.includes]; intro H.
  - destruct (String.prefix sub "") eqn:Hp; [|discriminate H].
    destruct sub; [|discriminate Hp].
    cbn. destruct b; reflexivity.
  - cbn [String.append JS.includes].
    destruct (String.prefix sub (String c a)) eqn:Hp.
    + change (String c (a ++ b)) with (String c a ++ b).
      rewrite (prefix_app sub (String c a) b Hp). reflexivity.
    + destruct (String.prefix sub (String c (a ++ b))); [reflexivity | exact (IH H)].
Qed.

Lemma includes_app_r (a b sub : string) :
  JS.includes b sub = true -> JS.includes (a ++ b) sub = true.
Proof.
  intro H. induction a as [|c a IH]; [exact H|].
  cbn [String.append JS.includes].
  destruct (String.prefix sub (String c (a ++ b))); [reflexivity | exact IH].
Qed.

(** X1. [verify] succeeds exactly when the text contains [export], fewer
    than three occurrences of [any], and [error] or [try]; it then names
    the executor as next agent, and the coder otherwise. *)
Theorem verify_succeeds_exactly (code : string) :
  AgentResponse.success (verify code)
  = JS.includes code "export"
    && (JS.occurrences "any" code <? 3)%nat
    && (JS.includes code "error" || JS.includes code "try")
  /\ AgentResponse.nextAgent (verify code)
     = Some (if AgentResponse.success (verify code)
             then AgentType.executor else AgentType.coder).
Proof.
  unfold verify, checkCodeQuality.
  rewrite VerifierFacts.split_any_length.
  destruct (Nat.ltb_spec 3 (S (JS.occurrences "any" code))) as [Hmany|Hfew].
  - rewrite (VerifierFacts.occurrences_includes "any" code) by lia.
    destruct (Nat.ltb_spec (JS.occurrences "any" code) 3); [lia|].
    destruct (JS.includes code "export"), (JS.includes code "error"),
      (JS.includes code "try"); cbn; split; reflexivity.
  - rewrite andb_false_r.
    destruct (Nat.ltb_spec (JS.occurrences "any" code) 3); [|lia].
    destruct (JS.includes code "export"), (JS.includes code "error"),
      (JS.includes code "try"); cbn; split; reflexivity.
Qed.

Lemma is_space_upper (c : ascii) : JS.is_space (JS.upper_char c) = JS.is_space c.
Proof. destruct c as [[] [] [] [] [] [] [] []]; reflexivity. Qed.

Lemma is_space_lower (c : ascii) : JS.is_space (JS.lower_char c) = JS.is_space c.
Proof. destruct c as [[] [] [] [] [] [] [] []]; reflexivity. Qed.

Lemma has_space_map (f : ascii -> ascii) (s : string) :
  (forall c, JS.is_space (f c) = JS.is_space c) ->
  JS.has_space (JS.map_string f s) = JS.has_space s.
Proof.
  intro Hf. induction s as [|c s IH]; cbn; [reflexivity|].
  rewrite Hf, IH. reflexivity.
Qed.

Lemma has_space_app (a b : string) :
  JS.has_space (a ++ b) = JS.has_space a || JS.has_space b.
Proof.
  induction a as [|c a IH]; cbn; [reflexivity|].
  rewrite IH. apply orb_assoc.
Qed.

Lemma has_space_rev_onto (acc s : string) :
  JS.has_space (JS.rev_string_onto acc s) = JS.has_space acc || JS.has_space s.
Proof.
  revert acc. induction s as [|c s IH]; intro acc; cbn.
  - rewrite orb_false_r. reflexivity.
  - rewrite IH. cbn.
    destruct (JS.is_space c), (JS.has_space acc), (JS.has_space s); reflexivity.
Qed.

(** The pieces of a split on white space hold no white space. *)
Lemma split_spaces_clean (s : string) (in_run : bool) (cur : string) :
  JS.has_space cur = false ->
  Forall (fun word => JS.has_space word = false)
         (JS.split_spaces_from s in_run cur).
Proof.
  revert in_run cur. induction s as [|c s IH]; intros in_run cur Hcur; cbn.
  - constructor; [|constructor]. unfold JS.flush.
    rewrite has_space_rev_onto. cbn. rewrite Hcur. reflexivity.
  - destruct (JS.is_space c) eqn:Hc.
    + destruct in_run; [apply IH; exact Hcur|].
      constructor; [|apply IH; reflexivity].
      unfold JS.flush. rewrite has_space_rev_onto. cbn. rewrite Hcur. reflexivity.
    + apply IH. cbn. rewrite Hc, Hcur. reflexivity.
Qed.

Lemma has_space_concat (l : list string) :
  Forall (fun word => JS.has_space word = false) l ->
  JS.has_space (String.concat "" l) = false.
Proof.
  induction 1 as [|w l Hw _ IH]; [reflexivity|].
  cbn [String.concat]. destruct l as [|w' l']; [exact Hw|].
  rewrite !has_space_app, Hw, IH. reflexivity.
Qed.

(** X2. [toPascalCase] returns a string without white space, whatever the
    prompt: the names that the coder builds from it are single words. *)
Theorem toPascalCase_no_space (str : string) :
  JS.has_space (CoderAgent.toPascalCase str) = false.
Proof.
  unfold CoderAgent.toPascalCase, JS.join, JS.split_spaces.
  apply has_space_concat. apply Forall_map.
  eapply Forall_impl; [|apply split_spaces_clean; reflexivity].
  intros word Hword. cbn beta.
  rewrite has_space_app. unfold JS.toUpperCase, JS.toLowerCase.
  rewrite (has_space_map _ _ is_space_upper), (has_space_map _ _ is_space_lower).
  destruct word as [|c word]; [reflexivity|].
  cbn in *. rewrite orb_false_r. exact Hword.
Qed.

Lemma code_has_export (prompt : string) :
  JS.includes (CoderAgent.code_for prompt) "export" = true.
Proof.
  unfold CoderAgent.code_for.
  apply includes_app_r. apply includes_app_r. apply includes_app_l.
  vm_compute. reflexivity.
Qed.

(** X3. With the built-in agents, for every prompt, project and clock: the
    planner and the coder complete, the text that the verifier receives
    contains [export], and the run has three records ending with a failed
    verifier, or four ending with a completed executor, according to the
    verifier's response on the coder's text. *)
Theorem builtin_pipeline (now : nat -> Z) (prompt : string) (projectId : Z) (n : nat) :
  map AgentOrchestrator.kind_and_status
      (AgentOrchestrator.trace now AgentOrchestrator.create prompt projectId n)
  = (AgentType.planner, TaskStatus.completed)
    :: (AgentType.coder, TaskStatus.completed)
    :: (if AgentResponse.success (verify (CoderAgent.code_for prompt))
        then [(AgentType.verifier, TaskStatus.completed);
              (AgentType.executor, TaskStatus.completed)]
        else [(AgentType.verifier, TaskStatus.failed)])
  /\ JS.includes (CoderAgent.code_for prompt) "export" = true.
Proof.
  split; [|apply code_has_export].
  unfold AgentOrchestrator.trace, AgentOrchestrator.orchestrate,
    AgentOrchestrator.start, AgentOrchestrator.Date_now, bind, ret.
  cbn [AgentOrchestrator.planner AgentOrchestrator.coder
       AgentOrchestrator.verifier AgentOrchestrator.executor
       AgentOrchestrator.create PlannerAgent.analyze CoderAgent.generate
       ExecutorAgent.execute AgentResponse.success AgentResponse.result
       JS.or_empty negb fst snd].
  destruct (verify (CoderAgent.code_for prompt)) as [[|] result error next];
    reflexivity.
Qed.

(** X4. When the prompt itself contains [try] or [error], the only issue
    that the verifier can report on the coder's text is the excessive use
    of [any]. *)
Theorem prompt_with_error_handling (prompt : string) :
  JS.includes prompt "try" || JS.includes prompt "error" = true ->
  forall issue,
    In issue (checkCodeQuality (CoderAgent.code_for prompt)) ->
    issue = excessive_any.
Proof.
  intros Hprompt issue. unfold checkCodeQuality.
  rewrite code_has_export. cbn [negb app].
  assert (Hcode : JS.includes (CoderAgent.code_for prompt) "error"
                  || JS.includes (CoderAgent.code_for prompt) "try" = true).
  { unfold CoderAgent.code_for. apply orb_true_iff.
    apply orb_true_iff in Hprompt. destruct Hprompt as [Htry|Herror].
    - right. apply includes_app_r. apply includes_app_l. exact Htry.
    - left. apply includes_app_r. apply includes_app_l. exact Herror. }
  destruct (JS.includes (CoderAgent.code_for prompt) "error"),
           (JS.includes (CoderAgent.code_for prompt) "try");
    try discriminate Hcode; cbn [negb andb app];
    rewrite app_nil_r;
    (destruct (_ && _); cbn; intro H;
     [destruct H as [<-|[]]; reflexivity | destruct H]).
Qed.

Lemma prompt_with_error_handling_witness :
  JS.includes "try a todo list" "try" || JS.includes "try a todo list" "error" = true
  /\ forall issue,
       In issue (checkCodeQuality (CoderAgent.code_for "try a todo list")) ->
       issue = excessive_any.
Proof.
  split.
  - reflexivity.
  - apply (prompt_with_error_handling "try a todo list"). reflexivity.
Defined.

(** X5. Removing the id of a task that has just been added gives the queue
    that removing it before the addition gives: [removeTask] drops every
    task of that id, old and new. When no queued task has the id, the queue
    is back to what it was, and the agents are never touched. *)
Theorem add_then_remove_task (this : AgentOrchestrator.t) (task : AgentTask.t) :
  let added := AgentOrchestrator.addTask this task in
  let removed := AgentOrchestrator.removeTask added (AgentTask.id task) in
  AgentOrchestrator.getTaskQueue removed
  = AgentOrchestrator.getTaskQueue
      (AgentOrchestrator.removeTask this (AgentTask.id task))
  /\ Forall (fun t => AgentTask.id t <> AgentTask.id task)
        (AgentOrchestrator.getTaskQueue removed)
  /\ (Forall (fun t => AgentTask.id t <> AgentTask.id task)
        (AgentOrchestrator.getTaskQueue this) ->
      removed = this).
Proof.
  cbn zeta.
  unfold AgentOrchestrator.getTaskQueue, AgentOrchestrator.removeTask,
    AgentOrchestrator.addTask, AgentOrchestrator.with_taskQueue.
  cbn [AgentOrchestrator.taskQueue AgentOrchestrator.planner
       AgentOrchestrator.coder AgentOrchestrator.verifier
       AgentOrchestrator.executor].
  rewrite filter_app. cbn [filter]. rewrite String.eqb_refl. cbn [negb].
  rewrite app_nil_r.
  split; [reflexivity|]. split.
  - apply Forall_forall. intros t Ht. apply filter_In in Ht.
    destruct Ht as [_ Ht]. destruct (String.eqb_spec (AgentTask.id t) (AgentTask.id task));
      [discriminate Ht | assumption].
  - intro Hfresh. destruct this as [p c v e queue]. cbn in *. f_equal.
    induction Hfresh as [|t queue Ht _ IH]; [reflexivity|].
    cbn. destruct (String.eqb_spec (AgentTask.id t) (AgentTask.id task));
      [contradiction|]. cbn. f_equal. exact IH.
Qed.

End AgentFacts.

(** ** The embedding service *)

Module EmbeddingFacts.

Import VectorEmbeddingService.

Lemma toInt32_range (z : Z) : (- 2 ^ 31 <= JS.toInt32 z < 2 ^ 31)%Z.
Proof.
  unfold JS.toInt32.
  pose proof (Z.mod_pos_bound (z + 2 ^ 31) (2 ^ 32) ltac:(lia)). lia.
Qed.

Lemma toInt32_small (z : Z) :
  (- 2 ^ 31 <= z < 2 ^ 31)%Z -> JS.toInt32 z = z.
Proof.
  intro Hz. unfold JS.toInt32. rewrite Z.mod_small by lia. lia.
Qed.

Lemma toInt32_wraps (z : Z) : exists k, JS.toInt32 z = (z + k * 2 ^ 32)%Z.
Proof.
  exists (- ((z + 2 ^ 31) / 2 ^ 32))%Z. unfold JS.toInt32.
  rewrite Z.mod_eq by lia. lia.
Qed.

Lemma toInt32_add_wrap (z k : Z) : JS.toInt32 (z + k * 2 ^ 32) = JS.toInt32 z.
Proof.
  unfold JS.toInt32.
  replace (z + k * 2 ^ 32 + 2 ^ 31)%Z with (z + 2 ^ 31 + k * 2 ^ 32)%Z by lia.
  rewrite Z.mod_add by lia. reflexivity.
Qed.

(** One round of the hash is [31 * hash + char], wrapped to 32 bits. *)
Lemma hash_step_wrapped (hash : Z) (c : ascii) :
  hash_step hash c = JS.toInt32 (31 * hash + Z.of_nat (nat_of_ascii c)).
Proof.
  unfold hash_step, JS.band, JS.shl. rewrite Z.land_diag.
  rewrite Z.shiftl_mul_pow2 by lia.
  destruct (toInt32_wraps hash) as [k1 ->].
  destruct (toInt32_wraps ((hash + k1 * 2 ^ 32) * 2 ^ 5)) as [k2 ->].
  replace ((hash + k1 * 2 ^ 32) * 2 ^ 5 + k2 * 2 ^ 32 - hash
           + Z.of_nat (nat_of_ascii c))%Z
    with (31 * hash + Z.of_nat (nat_of_ascii c) + (32 * k1 + k2) * 2 ^ 32)%Z
    by lia.
  apply toInt32_add_wrap.
Qed.

Lemma polynomial31_wrap (str : string) :
  forall h k, exists k',
    polynomial31_from (h + k * 2 ^ 32) str
    = (polynomial31_from h str + k' * 2 ^ 32)%Z.
Proof.
  induction str as [|c rest IH]; intros h k; cbn [polynomial31_from].
  - exists k. reflexivity.
  - replace (31 * (h + k * 2 ^ 32) + Z.of_nat (nat_of_ascii c))%Z
      with (31 * h + Z.of_nat (nat_of_ascii c) + (31 * k) * 2 ^ 32)%Z by lia.
    apply IH.
Qed.

Lemma hash_from_wrapped (str : string) :
  forall h, (- 2 ^ 31 <= h < 2 ^ 31)%Z ->
            hash_from h str = JS.toInt32 (polynomial31_from h str).
Proof.
  induction str as [|c rest IH]; intros h Hh; cbn [hash_from polynomial31_from].
  - symmetry. apply toInt32_small. exact Hh.
  - rewrite hash_step_wrapped.
    rewrite IH by apply toInt32_range.
    destruct (toInt32_wraps (31 * h + Z.of_nat (nat_of_ascii c))) as [k ->].
    destruct (polynomial31_wrap rest (31 * h + Z.of_nat (nat_of_ascii c)) k)
      as [k' ->].
    apply toInt32_add_wrap.
Qed.

(** X6. [simpleHash] is the base-31 polynomial of the character codes
    wrapped to a signed 32-bit integer; the hash of every string lies
    between -2^31 and 2^31 - 1, and the empty string hashes to 0. *)
Theorem simpleHash_closed_form (str : string) :
  simpleHash str = JS.toInt32 (polynomial31 str)
  /\ (- 2 ^ 31 <= simpleHash str < 2 ^ 31)%Z
  /\ simpleHash "" = 0%Z.
Proof.
  assert (H : simpleHash str = JS.toInt32 (polynomial31 str)).
  { apply hash_from_wrapped. lia. }
  split; [exact H|]. split; [|reflexivity].
  rewrite H. apply toInt32_range.
Qed.

Lemma sums_zero_left (n : nat) :
  forall e2 dotProduct magnitude2,
    snd (fst (sums (repeat 0%float n) e2 (dotProduct, 0%float, magnitude2)))
    = 0%float.
Proof.
  induction n as [|n IH]; intros e2 dotProduct magnitude2; cbn [repeat sums].
  - reflexivity.
  - destruct e2 as [|y e2]; [reflexivity|].
    change (0 + 0 * 0)%float with 0%float. apply IH.
Qed.

Lemma sums_zero_right (n : nat) :
  forall e1 dotProduct magnitude1,
    snd (sums e1 (repeat 0%float n) (dotProduct, magnitude1, 0%float))
    = 0%float.
Proof.
  induction n as [|n IH]; intros e1 dotProduct magnitude1; cbn [repeat].
  - destruct e1; reflexivity.
  - destruct e1 as [|x e1]; [reflexivity|]. cbn [sums].
    change (0 + 0 * 0)%float with 0%float. apply IH.
Qed.

(** X7. [calculateSimilarity] returns 0 when the two vectors differ in
    length, and when either of them has only zero components (or is
    empty): the division by a zero magnitude is never made. *)
Theorem similarity_zero_cases :
  (forall e1 e2,
      List.length e1 <> List.length e2 -> calculateSimilarity e1 e2 = 0%float)
  /\ (forall n e2, calculateSimilarity (repeat 0%float n) e2 = 0%float)
  /\ (forall n e1, calculateSimilarity e1 (repeat 0%float n) = 0%float).
Proof.
  split; [|split].
  - intros e1 e2 Hne. unfold calculateSimilarity.
    destruct (Nat.eqb_spec (List.length e1) (List.length e2)); [contradiction|].
    reflexivity.
  - intros n e2. unfold calculateSimilarity.
    destruct (negb _); [reflexivity|].
    pose proof (sums_zero_left n e2 0%float 0%float) as Hzero.
    destruct (sums (repeat 0%float n) e2 (0, 0, 0)%float) as [[d m1] m2].
    cbn [fst snd] in Hzero. subst m1.
    change (PrimFloat.eqb (PrimFloat.sqrt 0) 0) with true. reflexivity.
  - intros n e1. unfold calculateSimilarity.
    destruct (negb _); [reflexivity|].
    pose proof (sums_zero_right n e1 0%float 0%float) as Hzero.
    destruct (sums e1 (repeat 0%float n) (0, 0, 0)%float) as [[d m1] m2].
    cbn [fst snd] in Hzero. subst m2.
    change (PrimFloat.eqb (PrimFloat.sqrt 0) 0) with true.
    rewrite orb_true_r. reflexivity.
Qed.

End EmbeddingFacts.

(** ** The store across calls *)

Module StoreFacts.

Import MemoryStorage MemoryFacts.

Lemma show_Z_inj (a b : Z) : JS.show_Z a = JS.show_Z b -> a = b.
Proof.
  unfold JS.show_Z. intro H. apply DecimalZ.to_int_inj.
  assert (Hparse : forall z,
             NilZero.int_of_string (NilZero.string_of_int (Z.to_int z))
             = Some (Z.to_int z)).
  { intro z. apply NilZero.isi; destruct z; cbn; try discriminate;
      intros [= Hnil]; exact (DecimalPos.Unsigned.to_uint_nonnil _ Hnil). }
  pose proof (Hparse a) as Ha. rewrite H, Hparse in Ha.
  injection Ha as Ha. symmetry. exact Ha.
Qed.

Section Values.

Variable V : Type.

Implicit Types (m : JSMap.t V) (k : string) (v : V).

Lemma set_fresh m k v :
  ~ In k (JSMap.keys m) -> JSMap.set m k v = (m ++ [(k, v)])%list.
Proof.
  induction m as [|[k0 v0] rest IH]; cbn; intro Hfresh; [reflexivity|].
  destruct (String.eqb_spec k0 k) as [->|Hne]; [tauto|].
  f_equal. apply IH. tauto.
Qed.

Lemma keys_set_present m k v old :
  JSMap.get m k = Some old -> JSMap.keys (JSMap.set m k v) = JSMap.keys m.
Proof.
  induction m as [|[k0 v0] rest IH]; cbn; [discriminate|].
  destruct (String.eqb_spec k0 k) as [->|Hne]; cbn.
  - reflexivity.
  - intro H. f_equal. exact (IH H).
Qed.

Lemma get_keys m k v : JSMap.get m k = Some v -> In k (JSMap.keys m).
Proof.
  intro H. apply JSMapFacts.get_Some_In in H.
  change k with (fst (k, v)). apply in_map. exact H.
Qed.

Lemma get_remove_other m k k' :
  k' <> k -> JSMap.get (JSMap.remove m k) k' = JSMap.get m k'.
Proof.
  intro Hne.
  induction m as [|[k0 v0] rest IH]; cbn; [reflexivity|].
  destruct (String.eqb_spec k0 k) as [->|Hne0]; cbn.
  - destruct (String.eqb_spec k k'); [congruence | reflexivity].
  - destruct (k0 =? k')%string; [reflexivity | exact IH].
Qed.

Lemma length_remove m k v :
  JSMap.get m k = Some v ->
  S (List.length (JSMap.remove m k)) = List.length m.
Proof.
  induction m as [|[k0 v0] rest IH]; cbn; [discriminate|].
  destruct (k0 =? k)%string; cbn; [reflexivity|].
  intro H. f_equal. exact (IH H).
Qed.

End Values.

Section Run.

Variable Math_sin : float -> float.
Variable now : nat -> Z.

Abbreviation store := (store Math_sin now).
Abbreviation retrieve := (retrieve Math_sin now).
Abbreviation update := (update Math_sin now).
Abbreviation reachable := (MemoryContext.reachable Math_sin now).

Implicit Types (this : MemoryStorage.t) (query : MemoryQuery.t).

Lemma ids_below_weaken (keys : list string) (bound bound' : Z) :
  (bound <= bound')%Z ->
  Forall (fun k => exists i, k = "mem-" ++ JS.show_Z i /\ (i < bound)%Z) keys ->
  Forall (fun k => exists i, k = "mem-" ++ JS.show_Z i /\ (i < bound')%Z) keys.
Proof.
  intros Hle. apply Forall_impl. intros k (i & -> & Hi).
  exists i. split; [reflexivity | lia].
Qed.

(** The invariant of the reachable stores. *)
Lemma reachable_invariant this :
  reachable this -> wf this /\ ids_below this.
Proof.
  intro Hreach.
  induction Hreach as
      [ | this userId memoryType key value projectId n _ [IHwf IHids]
        | this query n _ [IHwf IHids]
        | this id userId updates n entry this' _ [IHwf IHids] Hcall
        | this id userId removed this' _ [IHwf IHids] Hcall ].
  - split; constructor.
  - split; [apply store_wf; exact IHwf|].
    unfold ids_below in *. cbn.
    apply Forall_forall. intros k Hk.
    apply JSMapFacts.keys_set_In in Hk. destruct Hk as [->|Hk].
    + exists (nextId this). split; [reflexivity | lia].
    + rewrite Forall_forall in IHids.
      destruct (IHids k Hk) as (i & -> & Hi).
      exists i. split; [reflexivity | lia].
  - split; [apply retrieve_wf; exact IHwf|].
    unfold ids_below in *. rewrite retrieve_eq. cbn [fst snd memories nextId].
    unfold MemoryStorage.touched. rewrite touch_all_keys.
    unfold MemoryStorage.scanned. rewrite scan_keys. exact IHids.
  - split; [exact (update_wf _ _ _ _ _ _ _ _ _ IHwf Hcall)|].
    unfold MemoryStorage.update, owned in Hcall.
    destruct (JSMap.get (memories this) id) as [old|] eqn:Hget;
      [|discriminate Hcall].
    destruct (MemoryEntry.userId old =? userId)%Z; [|discriminate Hcall].
    cbn in Hcall. injection Hcall as _ <-.
    unfold ids_below in *. cbn [memories nextId].
    rewrite (keys_set_present _ _ _ _ _ Hget). exact IHids.
  - split; [exact (delete_wf _ _ _ _ _ IHwf Hcall)|].
    unfold MemoryStorage.delete in Hcall.
    destruct (owned (memories this) id userId); [|discriminate Hcall].
    cbn in Hcall. injection Hcall as _ <-.
    unfold ids_below in *. cbn [memories nextId].
    apply Forall_forall. intros k Hk.
    rewrite Forall_forall in IHids. apply IHids.
    exact (JSMapFacts.keys_remove_In _ _ _ _ Hk).
Qed.

Lemma next_id_fresh this :
  reachable this ->
  ~ In ("mem-" ++ JS.show_Z (nextId this)) (JSMap.keys (memories this)).
Proof.
  intros Hreach Hin. destruct (reachable_invariant this Hreach) as [_ Hids].
  unfold ids_below in Hids. rewrite Forall_forall in Hids.
  destruct (Hids _ Hin) as (i & Heq & Hi).
  injection Heq as Heq. apply show_Z_inj in Heq. lia.
Qed.

(** X8. Every store that [store], [retrieve], [update] and [delete] produce
    from a new one has distinct keys, each of the form [mem-i] with [i]
    below the counter [nextId]: the next id is never one in use. *)
Theorem reachable_ids this :
  reachable this ->
  wf this
  /\ ids_below this
  /\ ~ In ("mem-" ++ JS.show_Z (nextId this)) (JSMap.keys (memories this)).
Proof.
  intro Hreach. destruct (reachable_invariant this Hreach) as [Hwf Hids].
  split; [exact Hwf|]. split; [exact Hids|]. apply next_id_fresh. exact Hreach.
Qed.

Lemma store_memories_append this userId memoryType key value projectId n :
  reachable this ->
  memories (snd (fst (store this userId memoryType key value projectId n)))
  = (memories this
     ++ [(("mem-" ++ JS.show_Z (nextId this))%string,
          fst (fst (store this userId memoryType key value projectId n)))])%list.
Proof.
  intro Hreach. cbn. apply set_fresh. apply next_id_fresh. exact Hreach.
Qed.

(** X9. On a reachable store, [store] appends: the map afterwards is the
    map before followed by the new entry under its new id, so no entry is
    overwritten and the new one is the last in iteration order. The entry
    returned is the one stored, with no access and the embedding of its
    value. *)
Theorem store_appends this userId memoryType key value projectId n :
  reachable this ->
  let entry := fst (fst (store this userId memoryType key value projectId n)) in
  let this' := snd (fst (store this userId memoryType key value projectId n)) in
  memories this'
  = (memories this ++ [(("mem-" ++ JS.show_Z (nextId this))%string, entry)])%list
  /\ nextId this' = (nextId this + 1)%Z
  /\ MemoryEntry.id entry = "mem-" ++ JS.show_Z (nextId this)
  /\ MemoryEntry.accessCount entry = 0%Z
  /\ MemoryEntry.relevanceScore entry = None
  /\ MemoryEntry.embedding entry
     = Some (VectorEmbeddingService.generateEmbedding Math_sin value).
Proof.
  intro Hreach. cbn zeta.
  split; [apply store_memories_append; exact Hreach|].
  cbn. repeat split.
Qed.

(** X10. [update] throws the not-found error, without reading the clock,
    when the id is absent or the entry belongs to another user. Otherwise
    it returns the entry that it stores under the same key, stamped with
    the time of the call; the keys keep their order, every other entry and
    the counter are as before. *)
Theorem update_frame this id userId updates n :
  match fst (update this id userId updates n) with
  | Returned (entry, this') =>
      JSMap.get (memories this') id = Some entry
      /\ MemoryEntry.updatedAt entry = now n
      /\ JSMap.keys (memories this') = JSMap.keys (memories this)
      /\ (forall k, k <> id ->
                    JSMap.get (memories this') k = JSMap.get (memories this) k)
      /\ nextId this' = nextId this
      /\ snd (update this id userId updates n) = S n
      /\ exists old, JSMap.get (memories this) id = Some old
                     /\ MemoryEntry.userId old = userId
  | Thrown message =>
      message = not_found
      /\ snd (update this id userId updates n) = n
      /\ (JSMap.get (memories this) id = None
          \/ exists old, JSMap.get (memories this) id = Some old
                         /\ MemoryEntry.userId old <> userId)
  end.
Proof.
  unfold MemoryStorage.update, owned.
  destruct (JSMap.get (memories this) id) as [old|] eqn:Hget.
  - destruct (Z.eqb_spec (MemoryEntry.userId old) userId) as [Heq|Hne].
    + cbn [bind ret Date_now fst snd memories nextId].
      split; [apply JSMapFacts.get_set_same|].
      split; [destruct (JS.when_truthy (MemoryUpdates.value updates)); reflexivity|].
      split; [exact (keys_set_present _ _ _ _ _ Hget)|].
      split; [intros k Hk; apply JSMapFacts.get_set_other; exact Hk|].
      split; [reflexivity|]. split; [reflexivity|].
      exists old. split; [reflexivity | exact Heq].
    + cbn. split; [reflexivity|]. split; [reflexivity|].
      right. exists old. split; [reflexivity | exact Hne].
  - cbn. split; [reflexivity|]. split; [reflexivity|]. left. reflexivity.
Qed.

(** X11. After a [delete] that returns, on a store with distinct keys: the
    id is no longer in the map, every other entry is as before, the map
    has one entry less, and deleting the same id again throws. *)
Theorem delete_frame this id userId removed this' :
  wf this ->
  delete this id userId = Returned (removed, this') ->
  JSMap.get (memories this') id = None
  /\ (forall k, k <> id ->
                JSMap.get (memories this') k = JSMap.get (memories this) k)
  /\ S (List.length (memories this')) = List.length (memories this)
  /\ nextId this' = nextId this
  /\ delete this' id userId = Thrown not_found.
Proof.
  intros Hwf. unfold MemoryStorage.delete, owned.
  destruct (JSMap.get (memories this) id) as [old|] eqn:Hget; [|discriminate].
  destruct (MemoryEntry.userId old =? userId)%Z; [|discriminate].
  cbn. intros [= _ <-]. cbn [memories nextId].
  assert (Hgone : JSMap.get (JSMap.remove (memories this) id) id = None)
    by (apply JSMapFacts.get_remove_same; exact Hwf).
  split; [exact Hgone|].
  split; [intros k Hk; apply get_remove_other; exact Hk|].
  split; [exact (length_remove _ _ _ _ Hget)|].
  split; [reflexivity|].
  rewrite Hgone. reflexivity.
Qed.

Lemma core_touch (time : Z) (e : MemoryEntry.t) : core (MemoryEntry.touch time e) = core e.
Proof. reflexivity. Qed.

Lemma core_visit query (e : MemoryEntry.t) :
  core (fst (visit Math_sin query e)) = core e.
Proof.
  rewrite <- (visit_only_score Math_sin query e) at 2. reflexivity.
Qed.

Lemma cores_scan query (m : JSMap.t MemoryEntry.t) :
  cores (fst (scan Math_sin query m)) = cores m.
Proof.
  induction m as [|[k e] rest IH]; cbn [scan]; [reflexivity|].
  pose proof (core_visit query e) as Hcore.
  destruct (visit Math_sin query e) as [e' pushed].
  destruct (scan Math_sin query rest) as [rest' results].
  cbn [fst snd cores map] in *. rewrite Hcore. f_equal. exact IH.
Qed.

Lemma cores_modify (f : MemoryEntry.t -> MemoryEntry.t)
      (m : JSMap.t MemoryEntry.t) (k : string) :
  (forall e, core (f e) = core e) ->
  cores (JSMap.modify f m k) = cores m.
Proof.
  intro Hf. induction m as [|[k0 e] rest IH]; cbn; [reflexivity|].
  destruct (k0 =? k)%string; cbn.
  - rewrite Hf. reflexivity.
  - f_equal. exact IH.
Qed.

Lemma cores_touch_all (m : JSMap.t MemoryEntry.t) (ks : list string) (n : nat) :
  cores (fst (touch_all now m ks n)) = cores m.
Proof.
  revert m n. induction ks as [|k rest IH]; intros m n; cbn; [reflexivity|].
  unfold bind, Date_now. cbn. rewrite IH.
  apply cores_modify. intro e. apply core_touch.
Qed.

(** X12. [retrieve] never adds, removes or reorders entries and writes no
    field other than [relevanceScore], [accessCount] and [lastAccessed]:
    with these three fields blanked, the map after the call is the map
    before it, for every store and query; the counter is unchanged. *)
Theorem retrieve_keeps_cores this query n :
  let this' := snd (fst (retrieve this query n)) in
  cores (memories this') = cores (memories this)
  /\ JSMap.keys (memories this') = JSMap.keys (memories this)
  /\ nextId this' = nextId this.
Proof.
  cbn zeta. rewrite retrieve_eq. cbn [fst snd memories nextId].
  unfold MemoryStorage.touched, MemoryStorage.scanned.
  rewrite cores_touch_all, cores_scan, touch_all_keys, scan_keys.
  repeat split.
Qed.

End Run.

Lemma two_entries_reachable :
  MemoryContext.reachable SineImpl.sin Scenario.clock (fst Scenario.two_entries).
Proof.
  unfold Scenario.two_entries, Scenario.one_entry, Scenario.after_store.
  cbn [fst snd]. apply MemoryContext.reach_store. apply MemoryContext.reach_store.
  apply MemoryContext.reach_create.
Qed.

(** The invariant on the store with two entries. *)
Lemma reachable_ids_witness :
  MemoryContext.reachable SineImpl.sin Scenario.clock (fst Scenario.two_entries)
  /\ wf (fst Scenario.two_entries).
Proof.
  split.
  - exact two_entries_reachable.
  - apply (reachable_ids SineImpl.sin Scenario.clock (fst Scenario.two_entries)).
    exact two_entries_reachable.
Defined.

(** A third [store] on the store with two entries. *)
Lemma store_appends_witness :
  MemoryContext.reachable SineImpl.sin Scenario.clock (fst Scenario.two_entries)
  /\ nextId (snd (fst (MemoryStorage.store SineImpl.sin Scenario.clock
                         (fst Scenario.two_entries) 2 MemoryType.error
                         "k3" "w" None (snd Scenario.two_entries))))
     = (nextId (fst Scenario.two_entries) + 1)%Z.
Proof.
  split.
  - exact two_entries_reachable.
  - apply (store_appends SineImpl.sin Scenario.clock (fst Scenario.two_entries)
             2 MemoryType.error "k3" "w" None (snd Scenario.two_entries)).
    exact two_entries_reachable.
Defined.

(** [delete("mem-1", 1)] on the store with two entries. *)
Lemma delete_frame_witness :
  wf (fst Scenario.two_entries)
  /\ delete (fst Scenario.two_entries) "mem-1" 1
     = Returned (true, MemoryStorage.mk
                         (JSMap.remove (memories (fst Scenario.two_entries)) "mem-1")
                         (nextId (fst Scenario.two_entries)))
  /\ JSMap.get (JSMap.remove (memories (fst Scenario.two_entries)) "mem-1") "mem-1"
     = None.
Proof.
  split; [exact two_entries_wf|]. split; [reflexivity|].
  apply (delete_frame (fst Scenario.two_entries) "mem-1" 1 true
           (MemoryStorage.mk
              (JSMap.remove (memories (fst Scenario.two_entries)) "mem-1")
              (nextId (fst Scenario.two_entries)))).
  - exact two_entries_wf.
  - reflexivity.
Defined.

End StoreFacts.

(** ** Sorting *)

Module SortFacts.

Section Sorting.

Variable A : Type.
Variable compareFn : A -> A -> Z.

Lemma insert_by_perm (x : A) (l : list A) :
  Permutation (JS.insert_by compareFn x l) (x :: l).
Proof.
  induction l as [|y rest IH]; cbn; [reflexivity|].
  destruct (0 <? compareFn x y)%Z; [|reflexivity].
  rewrite IH. apply perm_swap.
Qed.

Lemma sort_by_perm (l : list A) : Permutation (JS.sort_by compareFn l) l.
Proof.
  induction l as [|x rest IH]; cbn; [reflexivity|].
  rewrite insert_by_perm. constructor. exact IH.
Qed.

(** A comparison that puts [x] behind [y] exactly when [x] ranks lower
    sorts by decreasing rank. *)
Variable rank : A -> Z.

Abbreviation decreasing := (JS.decreasing rank).

Lemma insert_by_sorted (x : A) (l : list A) :
  (forall y, In y l -> (0 <? compareFn x y)%Z = (rank x <? rank y)%Z) ->
  StronglySorted decreasing l ->
  StronglySorted decreasing (JS.insert_by compareFn x l).
Proof.
  induction l as [|y rest IH]; intros Hcmp Hsorted; cbn.
  - constructor; constructor.
  - inversion Hsorted as [|? ? Hrest Hy]; subst.
    rewrite (Hcmp y (or_introl eq_refl)).
    destruct (Z.ltb_spec (rank x) (rank y)) as [Hlt|Hge].
    + constructor.
      * apply IH; [|exact Hrest]. intros z Hz. apply Hcmp. right. exact Hz.
      * apply Forall_forall. intros z Hz.
        apply (Permutation_in _ (insert_by_perm x rest)) in Hz.
        destruct Hz as [<-|Hz]; [unfold JS.decreasing; lia|].
        rewrite Forall_forall in Hy. exact (Hy z Hz).
    + constructor; [exact Hsorted|].
      constructor; [exact Hge|].
      rewrite Forall_forall in Hy. apply Forall_forall. intros z Hz.
      specialize (Hy z Hz). unfold JS.decreasing in *. lia.
Qed.

Lemma sort_by_sorted (l : list A) :
  (forall x y, In x l -> In y l ->
               (0 <? compareFn x y)%Z = (rank x <? rank y)%Z) ->
  StronglySorted decreasing (JS.sort_by compareFn l).
Proof.
  induction l as [|x rest IH]; intro Hcmp; cbn; [constructor|].
  apply insert_by_sorted.
  - intros y Hy. apply Hcmp; [left; reflexivity|].
    right. exact (Permutation_in _ (sort_by_perm rest) Hy).
  - apply IH. intros a b Ha Hb. apply Hcmp; right; assumption.
Qed.

Lemma firstn_sorted (c : nat) (l : list A) :
  StronglySorted decreasing l -> StronglySorted decreasing (firstn c l).
Proof.
  revert l. induction c as [|c IH]; intros l Hsorted; [constructor|].
  destruct l as [|x rest]; [constructor|].
  inversion Hsorted as [|? ? Hrest Hx]; subst. cbn. constructor.
  - apply IH. exact Hrest.
  - rewrite Forall_forall in *. intros y Hy. apply Hx.
    exact (MemoryFacts.firstn_In _ _ _ Hy).
Qed.

(** In a list sorted by decreasing rank, the elements of a head rank at
    least as high as the elements behind it. *)
Lemma head_dominates (c : nat) (l : list A) :
  StronglySorted decreasing l ->
  Forall (fun a => Forall (fun b => (rank b <= rank a)%Z) (skipn c l))
         (firstn c l).
Proof.
  revert l. induction c as [|c IH]; intros l Hsorted; [constructor|].
  destruct l as [|x rest]; [constructor|].
  inversion Hsorted as [|? ? Hrest Hx]; subst. cbn. constructor.
  - rewrite Forall_forall in *. intros y Hy. apply Hx.
    rewrite <- (firstn_skipn c rest). apply in_or_app. right. exact Hy.
  - apply IH. exact Hrest.
Qed.

End Sorting.

Lemma sort_is_sort_by (m : JSMap.t MemoryEntry.t) (l : list string) :
  MemoryStorage.sort m l = JS.sort_by (MemoryStorage.compareRefs m) l.
Proof.
  induction l as [|x rest IH]; cbn; [reflexivity|]. rewrite IH.
  generalize (JS.sort_by (MemoryStorage.compareRefs m) rest). intro sorted.
  induction sorted as [|y sorted IHs]; cbn; [reflexivity|].
  rewrite IHs. reflexivity.
Qed.

Lemma sorted_transfer {A B : Type} (rankA : A -> Z) (rankB : B -> Z)
      (la : list A) (lb : list B) :
  Forall2 (fun a b => rankB b = (rankA a + 1)%Z) la lb ->
  StronglySorted (JS.decreasing rankA) la ->
  StronglySorted (JS.decreasing rankB) lb.
Proof.
  induction 1 as [|a b la lb Hab Hrest IH]; intro Hsorted; [constructor|].
  inversion Hsorted as [|? ? Hla Ha]; subst. constructor; [exact (IH Hla)|].
  clear IH Hsorted Hla. induction Hrest as [|a' b' la lb Hab' _ IH'];
    [constructor|].
  inversion Ha as [|? ? Haa' Ha']; subst.
  constructor; [unfold JS.decreasing in *; lia | exact (IH' Ha')].
Qed.

Lemma Forall2_impl_In {A B : Type} (R R' : A -> B -> Prop)
      (la : list A) (lb : list B) :
  (forall a b, In a la -> R a b -> R' a b) ->
  Forall2 R la lb -> Forall2 R' la lb.
Proof.
  intros Himpl H. induction H as [|a b la lb Hab _ IH]; [constructor|].
  constructor.
  - apply Himpl; [left; reflexivity | exact Hab].
  - apply IH. intros a' b' Ha'. apply Himpl. right. exact Ha'.
Qed.

End SortFacts.

(** ** More on retrieval *)

Module RetrieveMore.

Import MemoryStorage MemoryFacts.

Lemma type_eqb_eq (a b : MemoryType.t) : MemoryType.eqb a b = true -> a = b.
Proof. destruct a, b; cbn; intro H; congruence. Qed.

Lemma total_is_userMemories (this : MemoryStorage.t) (userId : Z) :
  totalMemories (getStatistics this userId)
  = List.length (userMemories this userId).
Proof.
  unfold getStatistics. cbn [totalMemories].
  rewrite (Permutation_length (SortFacts.sort_by_perm _ _ _)).
  apply (Permutation_length (SortFacts.sort_by_perm _ _ _)).
Qed.

Section Run.

Variable Math_sin : float -> float.
Variable now : nat -> Z.

Abbreviation visit := (visit Math_sin).
Abbreviation scan := (scan Math_sin).
Abbreviation limited := (limited Math_sin).
Abbreviation retrieve := (retrieve Math_sin now).
Abbreviation rescored := (rescored Math_sin).

Implicit Types (this : MemoryStorage.t) (query : MemoryQuery.t).

Lemma scan_results_length query (m : JSMap.t MemoryEntry.t) :
  List.length (snd (scan query m))
  = List.length (filter (fun e => snd (visit query e)) (map snd m)).
Proof.
  induction m as [|[k e] rest IH]; cbn [MemoryStorage.scan map filter snd];
    [reflexivity|].
  destruct (visit query e) as [e' pushed].
  destruct (scan query rest) as [rest' results]. cbn [snd] in *.
  destruct pushed; cbn; rewrite IH; reflexivity.
Qed.

Lemma visit_user_only (userId : Z) (limit : option Z) (e : MemoryEntry.t) :
  snd (visit (MemoryQuery.mk userId None None None limit) e)
  = (MemoryEntry.userId e =? userId)%Z.
Proof.
  unfold MemoryStorage.visit. cbn.
  destruct (MemoryEntry.userId e =? userId)%Z; reflexivity.
Qed.

Lemma visit_pushed_type query (e : MemoryEntry.t) (memoryType : MemoryType.t) :
  MemoryQuery.memoryType query = Some memoryType ->
  snd (visit query e) = true ->
  MemoryEntry.memoryType e = memoryType.
Proof.
  intro Htype. unfold MemoryStorage.visit. rewrite Htype.
  destruct (negb (MemoryEntry.userId e =? MemoryQuery.userId query)%Z);
    [discriminate|].
  destruct (JS.truthy_Z (MemoryQuery.projectId query) && _); [discriminate|].
  cbn [JS.truthy_obj same_type andb].
  destruct (MemoryType.eqb (MemoryEntry.memoryType e) memoryType) eqn:Heq;
    cbn [negb]; [|discriminate].
  intros _. apply type_eqb_eq. exact Heq.
Qed.

Lemma rescored_fields query (e : MemoryEntry.t) :
  MemoryEntry.projectId (rescored query e) = MemoryEntry.projectId e
  /\ MemoryEntry.memoryType (rescored query e) = MemoryEntry.memoryType e
  /\ MemoryEntry.embedding (rescored query e) = MemoryEntry.embedding e
  /\ MemoryEntry.accessCount (rescored query e) = MemoryEntry.accessCount e.
Proof.
  unfold MemoryStorage.rescored.
  rewrite <- (visit_only_score Math_sin query e) at 2 4 6 8.
  repeat split.
Qed.

(** X13. A query that gives only the user (and maybe a limit), on a store
    with distinct keys: [totalResults] is the [totalMemories] that
    [getStatistics] reports for the user, and the number of returned
    entries is the smaller of the limit in force ([limit || 10]) and that
    total; a negative limit [-k] returns all of them but [k]. *)
Theorem user_retrieve_counts this (userId : Z) (limit : option Z) n :
  wf this ->
  let query := MemoryQuery.mk userId None None None limit in
  let result := fst (fst (retrieve this query n)) in
  let total := totalMemories (getStatistics this userId) in
  MemoryRetrievalResult.totalResults result = total
  /\ Z.of_nat (List.length (MemoryRetrievalResult.entries result))
     = (if effective_limit query <? 0
        then Z.max (Z.of_nat total + effective_limit query) 0
        else Z.min (effective_limit query) (Z.of_nat total))%Z.
Proof.
  intro Hwf. cbn zeta. rewrite retrieve_eq.
  cbn [fst snd MemoryRetrievalResult.entries MemoryRetrievalResult.totalResults].
  set (query := MemoryQuery.mk userId None None None limit).
  assert (Htotal : List.length (sorted_results Math_sin this query)
                   = totalMemories (getStatistics this userId)).
  { unfold MemoryStorage.sorted_results.
    rewrite (Permutation_length (sort_perm _ _)).
    unfold MemoryStorage.candidates. rewrite scan_results_length.
    rewrite total_is_userMemories. unfold userMemories.
    f_equal. apply filter_ext. intro e. apply visit_user_only. }
  split; [exact Htotal|].
  rewrite <- (Forall2_length (returned_entries Math_sin now this query n Hwf)).
  unfold MemoryStorage.limited, JS.slice0. rewrite Htotal.
  rewrite length_firstn, Htotal.
  generalize (effective_limit query). intro l.
  destruct (Z.ltb_spec l 0); lia.
Qed.

(** X14. On a store with distinct keys, every entry that [retrieve]
    returns has the [projectId] of the query when that is a number other
    than 0, and the [memoryType] of the query when one is given. *)
Theorem retrieve_filters this query n :
  wf this ->
  Forall (fun e =>
            (JS.truthy_Z (MemoryQuery.projectId query) = true ->
             MemoryEntry.projectId e = MemoryQuery.projectId query)
            /\ (forall memoryType,
                   MemoryQuery.memoryType query = Some memoryType ->
                   MemoryEntry.memoryType e = memoryType))
         (MemoryRetrievalResult.entries (fst (fst (retrieve this query n)))).
Proof.
  intro Hwf. apply Forall_forall. intros e' Hin.
  destruct (returned_entry_origin _ _ _ _ _ _ Hwf Hin)
    as (e & time & _ & Hpushed & ->).
  destruct (rescored_fields query e) as (Hproject & Htype & _ & _).
  split.
  - intro Htruthy. cbn. rewrite Hproject.
    exact (RetrieveFacts.visit_pushed_project Math_sin query e Htruthy Hpushed).
  - intros memoryType Hgiven. cbn. rewrite Htype.
    exact (visit_pushed_type query e memoryType Hgiven Hpushed).
Qed.

(** X15. With a non-empty query text, on a store with distinct keys, every
    returned entry that has an embedding carries as [relevanceScore] its
    similarity to the embedding of the text, and that similarity is above
    the floor of 0.3. *)
Theorem text_retrieve_floor this query (text : string) n :
  wf this ->
  JS.when_truthy (MemoryQuery.query query) = Some text ->
  Forall (fun e =>
            forall embedding,
              MemoryEntry.embedding e = Some embedding ->
              let similarity :=
                VectorEmbeddingService.calculateSimilarity embedding
                  (generateEmbedding Math_sin text) in
              MemoryEntry.relevanceScore e = Some similarity
              /\ PrimFloat.ltb relevance_floor similarity = true)
         (MemoryRetrievalResult.entries (fst (fst (retrieve this query n)))).
Proof.
  intros Hwf Htext. apply Forall_forall. intros e' Hin.
  destruct (returned_entry_origin _ _ _ _ _ _ Hwf Hin)
    as (e & time & _ & Hpushed & ->).
  destruct (rescored_fields query e) as (_ & _ & Hemb & _).
  intros embedding Hsome. cbn in Hsome. rewrite Hemb in Hsome.
  destruct (RetrieveFacts.visit_pushed_text Math_sin query e text embedding
              Htext Hsome Hpushed) as [Hfloor Hscore].
  cbn zeta. split; [exact Hscore | exact Hfloor].
Qed.

(** The rank of a reference in a map: the access count of its entry. *)
Lemma compare_unscored (a b : MemoryEntry.t) :
  JS.or_zero (MemoryEntry.relevanceScore a) = 0%float ->
  JS.or_zero (MemoryEntry.relevanceScore b) = 0%float ->
  (0 <? compareFn a b)%Z
  = (MemoryEntry.accessCount a <? MemoryEntry.accessCount b)%Z.
Proof.
  intros Ha Hb. unfold compareFn. rewrite Ha, Hb.
  change (JS.truthy_number (0 - 0)%float) with false. cbn iota.
  destruct (Z.ltb_spec (MemoryEntry.accessCount a) (MemoryEntry.accessCount b)).
  - rewrite Z.sgn_pos by lia. reflexivity.
  - destruct (Z.ltb_spec 0 (Z.sgn (MemoryEntry.accessCount b - MemoryEntry.accessCount a)))
      as [Hpos|_]; [|reflexivity].
    apply Z.sgn_pos_iff in Hpos. lia.
Qed.

(** X16. Without query text, on a store with distinct keys in which no
    entry carries a score (none has been returned by a text query), the
    returned entries come by decreasing [accessCount]. *)
Theorem plain_retrieve_sorted this query n :
  wf this ->
  JS.when_truthy (MemoryQuery.query query) = None ->
  Forall (fun e => JS.or_zero (MemoryEntry.relevanceScore e) = 0%float)
         (map snd (memories this)) ->
  StronglySorted (JS.decreasing MemoryEntry.accessCount)
    (MemoryRetrievalResult.entries (fst (fst (retrieve this query n)))).
Proof.
  intros Hwf Hplain Hunscored. rewrite retrieve_eq.
  cbn [fst snd MemoryRetrievalResult.entries].
  set (rank := fun k => match JSMap.get (memories this) k with
                        | Some e => MemoryEntry.accessCount e
                        | None => 0%Z
                        end).
  assert (Hscanned : forall k,
             JSMap.get (scanned Math_sin this query) k = JSMap.get (memories this) k).
  { intro k. unfold MemoryStorage.scanned. rewrite get_scan.
    destruct (JSMap.get (memories this) k) as [e|]; [|reflexivity].
    cbn. rewrite (visit_no_text Math_sin query e Hplain). reflexivity. }
  assert (Hsorted : StronglySorted (JS.decreasing rank)
                      (sorted_results Math_sin this query)).
  { unfold MemoryStorage.sorted_results. rewrite SortFacts.sort_is_sort_by.
    apply SortFacts.sort_by_sorted. intros x y Hx Hy.
    destruct (candidate_entry Math_sin this query x Hwf Hx) as (ex & Hgx & _).
    destruct (candidate_entry Math_sin this query y Hwf Hy) as (ey & Hgy & _).
    unfold compareRefs, rank. rewrite !Hscanned, Hgx, Hgy.
    rewrite Forall_forall in Hunscored.
    apply compare_unscored; apply Hunscored.
    - apply JSMapFacts.get_Some_In in Hgx.
      change ex with (snd (x, ex)). apply in_map. exact Hgx.
    - apply JSMapFacts.get_Some_In in Hgy.
      change ey with (snd (y, ey)). apply in_map. exact Hgy. }
  assert (Hlimited : StronglySorted (JS.decreasing rank) (limited this query)).
  { unfold MemoryStorage.limited, JS.slice0.
    apply SortFacts.firstn_sorted. exact Hsorted. }
  apply (SortFacts.sorted_transfer rank MemoryEntry.accessCount
           (limited this query)); [|exact Hlimited].
  apply (SortFacts.Forall2_impl_In
           (fun k e' => JSMap.get (touched Math_sin now this query n) k = Some e'));
    [|apply returned_entries; exact Hwf].
  intros k e' Hk Hget.
  destruct (In_nth_error _ _ Hk) as [i Hnth].
  destruct (returned_entry Math_sin now this query n i k Hwf Hnth)
    as (e & Hold & _ & Hnew).
  rewrite Hnew in Hget. injection Hget as <-.
  unfold rank. rewrite Hold. cbn.
  destruct (rescored_fields query e) as (_ & _ & _ & ->). reflexivity.
Qed.

End Run.

End RetrieveMore.

(** ** Statistics and the task context *)

Module StatisticsFacts.

Import MemoryStorage MemoryFacts.

Lemma count_types (l : list MemoryEntry.t) :
  forall acc,
    fold_left (fun byType memory =>
                 count_type byType (MemoryEntry.memoryType memory)) l acc
    = mkByType (lesson acc + count_of MemoryType.lesson l)
               (preference acc + count_of MemoryType.preference l)
               (solution acc + count_of MemoryType.solution l)
               (error acc + count_of MemoryType.error l).
Proof.
  unfold count_of.
  induction l as [|e rest IH]; intro acc; cbn [fold_left filter].
  - destruct acc. cbn. f_equal; lia.
  - rewrite IH. destruct acc as [a b c d].
    destruct (MemoryEntry.memoryType e); cbn [count_type MemoryType.eqb lesson
      preference solution error List.length]; f_equal; lia.
Qed.

Lemma counts_sum (l : list MemoryEntry.t) :
  (count_of MemoryType.lesson l + count_of MemoryType.preference l
   + count_of MemoryType.solution l + count_of MemoryType.error l)%Z
  = Z.of_nat (List.length l).
Proof.
  unfold count_of.
  induction l as [|e rest IH]; [reflexivity|].
  cbn [filter]. destruct (MemoryEntry.memoryType e);
    cbn [MemoryType.eqb List.length]; lia.
Qed.

(** X17. In the statistics of a user, each counter of [byType] is the
    number of the user's entries of that type, the four counters add up to
    [totalMemories], and [totalMemories] is the number of the user's
    entries. *)
Theorem statistics_byType (this : MemoryStorage.t) (userId : Z) :
  let stats := getStatistics this userId in
  let mine := userMemories this userId in
  lesson (byType stats) = count_of MemoryType.lesson mine
  /\ preference (byType stats) = count_of MemoryType.preference mine
  /\ solution (byType stats) = count_of MemoryType.solution mine
  /\ error (byType stats) = count_of MemoryType.error mine
  /\ totalMemories stats = List.length mine
  /\ (lesson (byType stats) + preference (byType stats)
      + solution (byType stats) + error (byType stats))%Z
     = Z.of_nat (totalMemories stats).
Proof.
  cbn zeta.
  assert (Htotal := RetrieveMore.total_is_userMemories this userId).
  assert (Hby : byType (getStatistics this userId)
                = mkByType (count_of MemoryType.lesson (userMemories this userId))
                           (count_of MemoryType.preference (userMemories this userId))
                           (count_of MemoryType.solution (userMemories this userId))
                           (count_of MemoryType.error (userMemories this userId))).
  { unfold getStatistics. cbn [byType]. rewrite count_types. reflexivity. }
  rewrite Hby, Htotal. cbn [lesson preference solution error].
  repeat split. apply counts_sum.
Qed.

Lemma slice0_five {A : Type} (l : list A) :
  JS.slice0 l 5 = firstn 5 l.
Proof.
  unfold JS.slice0. cbn [Z.ltb Z.compare].
  destruct (Nat.le_gt_cases (List.length l) 5) as [Hle|Hgt].
  - rewrite Z.min_r by lia. rewrite Nat2Z.id.
    rewrite !firstn_all2 by lia. reflexivity.
  - rewrite Z.min_l by lia. reflexivity.
Qed.

Lemma top_of_sorted (rank : MemoryEntry.t -> Z)
      (compareFn : MemoryEntry.t -> MemoryEntry.t -> Z)
      (l all : list MemoryEntry.t) :
  (forall x y, (0 <? compareFn x y)%Z = (rank x <? rank y)%Z) ->
  Permutation l all ->
  top_five rank all (JS.slice0 (JS.sort_by compareFn l) 5).
Proof.
  intros Hcmp Hperm. rewrite slice0_five.
  assert (Hsorted : StronglySorted (JS.decreasing rank) (JS.sort_by compareFn l)).
  { apply SortFacts.sort_by_sorted. intros x y _ _. apply Hcmp. }
  split; [apply firstn_le_length|].
  split; [apply SortFacts.firstn_sorted; exact Hsorted|].
  exists (skipn 5 (JS.sort_by compareFn l)).
  split; [|split].
  - rewrite firstn_skipn. rewrite SortFacts.sort_by_perm. exact Hperm.
  - apply SortFacts.head_dominates. exact Hsorted.
  - intro Hfew. apply skipn_all2.
    rewrite (Permutation_length (SortFacts.sort_by_perm _ _ l)).
    rewrite (Permutation_length Hperm). exact Hfew.
Qed.

(** X18. In the statistics of a user, [mostAccessed] holds the user's five
    entries of highest [accessCount] and [recentlyAdded] the five of latest
    [createdAt], each list in decreasing order and complete when the user
    has at most five entries; every entry counted is the user's. *)
Theorem statistics_top_five (this : MemoryStorage.t) (userId : Z) :
  let stats := getStatistics this userId in
  top_five MemoryEntry.accessCount (userMemories this userId) (mostAccessed stats)
  /\ top_five MemoryEntry.createdAt (userMemories this userId) (recentlyAdded stats)
  /\ Forall (fun e => MemoryEntry.userId e = userId) (userMemories this userId).
Proof.
  cbn zeta. unfold getStatistics. cbn [mostAccessed recentlyAdded].
  split; [|split].
  - apply top_of_sorted; [|reflexivity].
    intros x y. unfold by_accessCount.
    destruct (Z.ltb_spec 0 (MemoryEntry.accessCount y - MemoryEntry.accessCount x)),
             (Z.ltb_spec (MemoryEntry.accessCount x) (MemoryEntry.accessCount y));
      (reflexivity || lia).
  - apply top_of_sorted; [|apply SortFacts.sort_by_perm].
    intros x y. unfold by_createdAt.
    destruct (Z.ltb_spec 0 (MemoryEntry.createdAt y - MemoryEntry.createdAt x)),
             (Z.ltb_spec (MemoryEntry.createdAt x) (MemoryEntry.createdAt y));
      (reflexivity || lia).
  - apply Forall_forall. intros e He. unfold userMemories in He.
    apply filter_In in He. destruct He as [_ He]. apply Z.eqb_eq. exact He.
Qed.

End StatisticsFacts.

Module ContextFacts.

Import MemoryStorage MemoryFacts.

Section Run.

Variable Math_sin : float -> float.
Variable now : nat -> Z.

Abbreviation retrieve := (retrieve Math_sin now).
Abbreviation store := (store Math_sin now).
Abbreviation getContextForTask := (MemoryContext.getContextForTask Math_sin now).
Abbreviation learnFromExecution := (MemoryContext.learnFromExecution Math_sin now).
Abbreviation reachable := (MemoryContext.reachable Math_sin now).

(** The query that [getContextForTask] builds. *)
Abbreviation context_query userId projectId taskDescription :=
  (MemoryQuery.mk userId (Some projectId) None (Some taskDescription) (Some 5%Z)).

Lemma context_is_retrieve (storage : MemoryStorage.t) (userId projectId : Z)
      (taskDescription : string) (n : nat) :
  getContextForTask storage userId projectId taskDescription n
  = let r := retrieve storage (context_query userId projectId taskDescription) n in
    (MemoryRetrievalResult.entries (fst (fst r)), snd (fst r), snd r).
Proof.
  unfold MemoryContext.getContextForTask, bind, ret.
  destruct (retrieve storage (context_query userId projectId taskDescription) n)
    as [[result storage'] n'].
  reflexivity.
Qed.

(** X19. [getContextForTask], on a store with distinct keys, returns at
    most five entries, all of the given user, and all of the given project
    when the project id is not 0. *)
Theorem context_for_task (storage : MemoryStorage.t) (userId projectId : Z)
        (taskDescription : string) (n : nat) :
  wf storage ->
  let entries :=
    fst (fst (getContextForTask storage userId projectId taskDescription n)) in
  (List.length entries <= 5)%nat
  /\ Forall (fun e => MemoryEntry.userId e = userId) entries
  /\ (projectId <> 0%Z ->
      Forall (fun e => MemoryEntry.projectId e = Some projectId) entries).
Proof.
  intro Hwf. cbn zeta. rewrite context_is_retrieve. cbn [fst snd].
  split; [|split].
  - destruct (RetrieveFacts.retrieve_limit Math_sin now storage
                (context_query userId projectId taskDescription) n)
      as (_ & _ & _ & Hlimit).
    specialize (Hlimit 5%Z eq_refl ltac:(lia)). lia.
  - apply Forall_forall. intros e' Hin.
    destruct (returned_entry_origin _ _ _ _ _ _ Hwf Hin)
      as (e & time & _ & Hpushed & ->).
    apply visit_pushed_user in Hpushed. cbn in Hpushed.
    transitivity (MemoryEntry.userId e); [|exact Hpushed].
    unfold MemoryStorage.rescored.
    rewrite <- (visit_only_score Math_sin
                  (context_query userId projectId taskDescription) e) at 2.
    reflexivity.
  - intro Hproject.
    apply (RetrieveFacts.retrieve_scoped_to_project Math_sin now storage
             (context_query userId projectId taskDescription) n Hwf).
    cbn. destruct (Z.eqb_spec projectId 0); [contradiction | reflexivity].
Qed.

Lemma learn_is_store (storage : MemoryStorage.t) (userId projectId : Z)
      (taskDescription result : string) (success : bool) (n : nat) :
  learnFromExecution storage userId projectId taskDescription result success n
  = (snd (fst (store storage userId
                 (if success then MemoryType.solution else MemoryType.error)
                 (taskDescription ++ "-" ++ JS.show_Z (now n)) result
                 (Some projectId) (S n))),
     S (S (S (S n)))).
Proof. reflexivity. Qed.

Lemma userMemories_append (storage storage' : MemoryStorage.t) (userId : Z)
      (k : string) (entry : MemoryEntry.t) :
  memories storage' = (memories storage ++ [(k, entry)])%list ->
  MemoryEntry.userId entry = userId ->
  userMemories storage' userId = (userMemories storage userId ++ [entry])%list.
Proof.
  intros Hmem Huser. unfold userMemories.
  rewrite Hmem, map_app, filter_app. cbn [map filter snd].
  rewrite Huser, Z.eqb_refl. reflexivity.
Qed.

(** X20. [learnFromExecution] on a reachable store appends one entry of the
    user and project, of type [solution] for a success and [error]
    otherwise, whose value is the result and whose key is the task
    description followed by the time of the call. The user's statistics
    then count one entry more, in the counter of that type only. *)
Theorem learn_then_stats (storage : MemoryStorage.t) (userId projectId : Z)
        (taskDescription result : string) (success : bool) (n : nat) :
  reachable storage ->
  let storage' :=
    fst (learnFromExecution storage userId projectId taskDescription result
           success n) in
  let memoryType := if success then MemoryType.solution else MemoryType.error in
  let before := MemoryContext.getMemoryStats storage userId in
  let after := MemoryContext.getMemoryStats storage' userId in
  (exists entry,
      memories storage'
      = (memories storage
         ++ [(("mem-" ++ JS.show_Z (nextId storage))%string, entry)])%list
      /\ MemoryEntry.userId entry = userId
      /\ MemoryEntry.projectId entry = Some projectId
      /\ MemoryEntry.memoryType entry = memoryType
      /\ MemoryEntry.key entry = taskDescription ++ "-" ++ JS.show_Z (now n)
      /\ MemoryEntry.value entry = result)
  /\ totalMemories after = S (totalMemories before)
  /\ byType after = count_type (byType before) memoryType
  /\ reachable storage'.
Proof.
  intro Hreach. cbn zeta. rewrite learn_is_store. cbn [fst].
  set (memoryType := if success then MemoryType.solution else MemoryType.error).
  set (key := taskDescription ++ "-" ++ JS.show_Z (now n)).
  pose proof (StoreFacts.store_memories_append Math_sin now storage userId
                memoryType key result (Some projectId) (S n) Hreach) as Happend.
  set (entry := fst (fst (store storage userId memoryType key result
                            (Some projectId) (S n)))) in *.
  set (storage' := snd (fst (store storage userId memoryType key result
                               (Some projectId) (S n)))) in *.
  assert (Huser : MemoryEntry.userId entry = userId) by reflexivity.
  pose proof (userMemories_append storage storage' userId _ entry Happend Huser)
    as Hmine.
  split; [|split; [|split]].
  - exists entry. split; [exact Happend|]. repeat split.
  - unfold MemoryContext.getMemoryStats.
    rewrite !RetrieveMore.total_is_userMemories, Hmine, length_app.
    cbn. lia.
  - unfold MemoryContext.getMemoryStats, getStatistics. cbn [byType].
    rewrite Hmine, fold_left_app. reflexivity.
  - apply MemoryContext.reach_store. exact Hreach.
Qed.

End Run.

(** The theorems with a precondition, on the store with two entries. *)

Lemma user_retrieve_counts_witness :
  wf (fst Scenario.two_entries)
  /\ MemoryRetrievalResult.totalResults
       (fst (fst (MemoryStorage.retrieve SineImpl.sin Scenario.clock
                    (fst Scenario.two_entries)
                    (MemoryQuery.mk 1 None None None (Some 1%Z))
                    (snd Scenario.two_entries))))
     = totalMemories (getStatistics (fst Scenario.two_entries) 1).
Proof.
  split.
  - exact two_entries_wf.
  - apply (RetrieveMore.user_retrieve_counts SineImpl.sin Scenario.clock
             (fst Scenario.two_entries) 1 (Some 1%Z) (snd Scenario.two_entries)).
    exact two_entries_wf.
Defined.

(** The filters on the store with two entries, for a query that names
    project 7 and the type [lesson]: the call returns [mem-2], of that
    project and type, and not [mem-1], which has no project. *)
Lemma retrieve_filters_witness :
  wf (fst Scenario.two_entries)
  /\ JS.truthy_Z (MemoryQuery.projectId Scenario.project_type_query) = true
  /\ MemoryQuery.memoryType Scenario.project_type_query = Some MemoryType.lesson
  /\ Scenario.ids
       (MemoryRetrievalResult.entries
          (fst (fst (MemoryStorage.retrieve SineImpl.sin Scenario.clock
                       (fst Scenario.two_entries) Scenario.project_type_query
                       (snd Scenario.two_entries)))))
     = ["mem-2"]
  /\ Forall (fun e =>
               MemoryEntry.projectId e = Some 7%Z
               /\ MemoryEntry.memoryType e = MemoryType.lesson)
       (MemoryRetrievalResult.entries
          (fst (fst (MemoryStorage.retrieve SineImpl.sin Scenario.clock
                       (fst Scenario.two_entries) Scenario.project_type_query
                       (snd Scenario.two_entries))))).
Proof.
  split; [exact two_entries_wf|]. split; [reflexivity|]. split; [reflexivity|].
  split; [vm_compute; reflexivity|].
  eapply Forall_impl;
    [|apply (RetrieveMore.retrieve_filters SineImpl.sin Scenario.clock
               (fst Scenario.two_entries) Scenario.project_type_query
               (snd Scenario.two_entries)); exact two_entries_wf].
  intros e [Hproject Htype]. split.
  - apply Hproject. reflexivity.
  - apply Htype. reflexivity.
Defined.

Lemma text_retrieve_floor_witness :
  wf (fst Scenario.two_entries)
  /\ JS.when_truthy (MemoryQuery.query Scenario.text_query) = Some "v"
  /\ Forall (fun e =>
               forall embedding,
                 MemoryEntry.embedding e = Some embedding ->
                 let similarity :=
                   VectorEmbeddingService.calculateSimilarity embedding
                     (generateEmbedding SineImpl.sin "v") in
                 MemoryEntry.relevanceScore e = Some similarity
                 /\ PrimFloat.ltb relevance_floor similarity = true)
       (MemoryRetrievalResult.entries
          (fst (fst (MemoryStorage.retrieve SineImpl.sin Scenario.clock
                       (fst Scenario.two_entries) Scenario.text_query
                       (snd Scenario.two_entries))))).
Proof.
  split; [exact two_entries_wf|]. split; [reflexivity|].
  apply (RetrieveMore.text_retrieve_floor SineImpl.sin Scenario.clock
           (fst Scenario.two_entries) Scenario.text_query "v"
           (snd Scenario.two_entries)).
  - exact two_entries_wf.
  - reflexivity.
Defined.

Lemma two_entries_unscored :
  Forall (fun e => JS.or_zero (MemoryEntry.relevanceScore e) = 0%float)
         (map snd (memories (fst Scenario.two_entries))).
Proof.
  repeat constructor.
Qed.

Lemma plain_retrieve_sorted_witness :
  wf (fst Scenario.two_entries)
  /\ JS.when_truthy (MemoryQuery.query Scenario.plain_query) = None
  /\ StronglySorted (JS.decreasing MemoryEntry.accessCount)
       (MemoryRetrievalResult.entries
          (fst (fst (MemoryStorage.retrieve SineImpl.sin Scenario.clock
                       (fst Scenario.two_entries) Scenario.plain_query
                       (snd Scenario.two_entries))))).
Proof.
  split; [exact two_entries_wf|]. split; [reflexivity|].
  apply (RetrieveMore.plain_retrieve_sorted SineImpl.sin Scenario.clock
           (fst Scenario.two_entries) Scenario.plain_query
           (snd Scenario.two_entries)).
  - exact two_entries_wf.
  - reflexivity.
  - exact two_entries_unscored.
Defined.

Lemma context_for_task_witness :
  wf (fst Scenario.two_entries)
  /\ (List.length
        (fst (fst (MemoryContext.getContextForTask SineImpl.sin Scenario.clock
                     (fst Scenario.two_entries) 1 7 "v"
                     (snd Scenario.two_entries)))) <= 5)%nat.
Proof.
  split.
  - exact two_entries_wf.
  - apply (context_for_task SineImpl.sin Scenario.clock
             (fst Scenario.two_entries) 1 7 "v" (snd Scenario.two_entries)).
    exact two_entries_wf.
Defined.

Lemma learn_then_stats_witness :
  MemoryContext.reachable SineImpl.sin Scenario.clock (fst Scenario.two_entries)
  /\ totalMemories
       (MemoryContext.getMemoryStats
          (fst (MemoryContext.learnFromExecution SineImpl.sin Scenario.clock
                  (fst Scenario.two_entries) 1 7 "build" "done" true
                  (snd Scenario.two_entries))) 1)
     = S (totalMemories
            (MemoryContext.getMemoryStats (fst Scenario.two_entries) 1)).
Proof.
  split.
  - exact StoreFacts.two_entries_reachable.
  - apply (learn_then_stats SineImpl.sin Scenario.clock
             (fst Scenario.two_entries) 1 7 "build" "done" true
             (snd Scenario.two_entries)).
    exact StoreFacts.two_entries_reachable.
Defined.

End ContextFacts.

(** ** The records of a run *)

Module TraceFacts.

Import AgentOrchestrator.

Lemma settle_final (task : AgentTask.t) (r : AgentResponse.t) (finished : Z) :
  (AgentTask.status (settle task r finished) = TaskStatus.completed
   \/ AgentTask.status (settle task r finished) = TaskStatus.failed)
  /\ AgentTask.completedAt (settle task r finished) = Some finished
  /\ AgentTask.projectId (settle task r finished) = AgentTask.projectId task
  /\ AgentTask.result (settle task r finished) = AgentResponse.result r
  /\ AgentTask.error (settle task r finished) = AgentResponse.error r.
Proof.
  unfold settle, status_of. cbn.
  destruct (AgentResponse.success r); repeat split; auto.
Qed.

(** X21. For every orchestrator, prompt, project and clock, no record of
    the returned trace is left pending or running: each one is completed
    or failed, has its [completedAt] set and carries the project id of the
    call. *)
Theorem trace_records_final (now : nat -> Z) (this : AgentOrchestrator.t)
        (prompt : string) (projectId : Z) (n : nat) :
  Forall (fun task =>
            (AgentTask.status task = TaskStatus.completed
             \/ AgentTask.status task = TaskStatus.failed)
            /\ (exists finished, AgentTask.completedAt task = Some finished)
            /\ AgentTask.projectId task = projectId)
         (trace now this prompt projectId n).
Proof.
  assert (Hsettled : forall task r finished,
             AgentTask.projectId task = projectId ->
             (AgentTask.status (settle task r finished) = TaskStatus.completed
              \/ AgentTask.status (settle task r finished) = TaskStatus.failed)
             /\ (exists f, AgentTask.completedAt (settle task r finished) = Some f)
             /\ AgentTask.projectId (settle task r finished) = projectId).
  { intros task r finished Htask.
    destruct (settle_final task r finished) as (Hstatus & Hdone & Hproject & _).
    split; [exact Hstatus|].
    split; [eexists; exact Hdone | rewrite Hproject; exact Htask]. }
  unfold trace, orchestrate, start, bind, ret, Date_now.
  cbn [fst snd].
  destruct (AgentResponse.success (planner this prompt)); cbn [negb fst snd].
  2: { constructor; [apply Hsettled; reflexivity | constructor]. }
  destruct (AgentResponse.success
              (coder this prompt (AgentResponse.result (planner this prompt))));
    cbn [negb fst snd app].
  2: { repeat (constructor; [apply Hsettled; reflexivity|]). constructor. }
  destruct (AgentResponse.success
              (verifier this
                 (JS.or_empty
                    (AgentResponse.result
                       (coder this prompt
                          (AgentResponse.result (planner this prompt)))))));
    cbn [negb fst snd app];
    repeat (constructor; [apply Hsettled; reflexivity|]); constructor.
Qed.

End TraceFacts.
